(** * JWT API Simulation: the token lifecycle of [main.py]

    A shallow embedding of the Flask application in [src/main.py]: key
    identifier set-up, [issue_jwt_for_uid], the cookie binding
    ([set_session], [clear_session]) and the handlers [issue], [api_ping],
    [reset] and [jwks].

    The application calls three libraries.  Their behaviour is made
    explicit as follows.
    - PyJWT ([jwt.encode], [jwt.get_unverified_header], [jwt.decode]) is
      modelled step by step in [jwt_encode], [jwt_get_unverified_header]
      and [jwt_decode], after the 2.x releases up to 2.9 (later releases
      add type checks on [sub] and [jti] after the audience check); the
      base64url/JSON wire format and the signature algorithms are
      parameters of the development.
    - jwcrypto's JWK is a dictionary of string members; which of them
      are public is read from jwcrypto's registries of parameters; PEM
      export is a parameter.
    - The clock and [uuid4] are oracles read through a counter kept in the
      [world], so every handler is a function of the world it runs in. *)

From stdpp Require Import base option strings pretty gmap list countable.
From Stdlib Require Import ZArith Lia Ascii.

Local Open Scope Z_scope.

(** ** Python strings

    A [string] stands for a Python [str] whose code points are below 256,
    one character per code point. *)

Definition dquote : string := String (Ascii.ascii_of_nat 34) EmptyString.

(** [str.isspace] on the code points below 256: U+0009..U+000D,
    U+001C..U+0020, U+0085 and U+00A0. *)
Definition isspace (a : Ascii.ascii) : bool :=
  let n := Z.of_nat (Ascii.nat_of_ascii a) in
  ((9 <=? n) && (n <=? 13)) || ((28 <=? n) && (n <=? 32))
  || (n =? 133) || (n =? 160).

Fixpoint lstrip (s : string) : string :=
  match s with
  | EmptyString => EmptyString
  | String a r => if isspace a then lstrip r else s
  end.

Fixpoint rstrip (s : string) : string :=
  match s with
  | EmptyString => EmptyString
  | String a r =>
      match rstrip r with
      | EmptyString => if isspace a then EmptyString else String a EmptyString
      | r' => String a r'
      end
  end.

(** [s.strip()] *)
Definition strip (s : string) : string := rstrip (lstrip s).

(** A string made of whitespace only, and a string that neither starts nor
    ends with whitespace. *)
Fixpoint all_space (s : string) : bool :=
  match s with
  | EmptyString => true
  | String a r => isspace a && all_space r
  end.

Definition starts_solid (s : string) : bool :=
  match s with
  | EmptyString => false
  | String a _ => negb (isspace a)
  end.

Fixpoint ends_solid (s : string) : bool :=
  match s with
  | EmptyString => false
  | String a EmptyString => negb (isspace a)
  | String _ r => ends_solid r
  end.

(** Truth value of a [str]: only the empty string is false. *)
Definition truthy (s : string) : bool :=
  match s with EmptyString => false | _ => true end.

(** [x or ""] for an optional string. *)
Definition or_empty (o : option string) : string :=
  match o with
  | Some s => if truthy s then s else EmptyString
  | None => EmptyString
  end.

(** ** JSON values carried by headers and claims

    What [json.loads] can put in a header or a payload: [None], a
    [bool], an [int] of any size, a [float] (a finite one as a fraction,
    an infinity or a NaN, which Python's reader accepts), a [str], a
    [list], a [dict]. *)

Inductive pyfloat : Type :=
  | FFinite (num : Z) (den : positive)
  | FInf (negative : bool)
  | FNaN.

#[global] Instance pyfloat_eq_dec : EqDecision pyfloat.
Proof. solve_decision. Defined.

#[global] Instance pyfloat_countable : Countable pyfloat.
Proof.
  refine (inj_countable'
    (fun f => match f with
              | FFinite n d => inl (n, d)
              | FInf b => inr (inl b)
              | FNaN => inr (inr ())
              end)
    (fun x => match x with
              | inl (n, d) => FFinite n d
              | inr (inl b) => FInf b
              | inr (inr _) => FNaN
              end) _).
  by intros [].
Defined.

Inductive jval : Type :=
  | JNull
  | JBool (b : bool)
  | JInt (z : Z)
  | JFloat (f : pyfloat)
  | JStr (s : string)
  | JArr (items : list jval)
  | JObj (members : list (string * jval)).

(** Equality and enumeration of [jval] go through stdpp's generic
    trees. *)
Definition jleaf : Type := unit + bool + Z + pyfloat + string.

Fixpoint jval_to_tree (v : jval) : gen_tree jleaf :=
  match v with
  | JNull => GenLeaf (inl (inl (inl (inl ()))))
  | JBool b => GenLeaf (inl (inl (inl (inr b))))
  | JInt z => GenLeaf (inl (inl (inr z)))
  | JFloat f => GenLeaf (inl (inr f))
  | JStr s => GenLeaf (inr s)
  | JArr items => GenNode 0 (map jval_to_tree items)
  | JObj members =>
      GenNode 1
        (map (fun kv =>
                match kv with
                | (k, x) => GenNode 2 [GenLeaf (inr k); jval_to_tree x]
                end) members)
  end.

Fixpoint jval_of_tree (t : gen_tree jleaf) : jval :=
  match t with
  | GenLeaf (inl (inl (inl (inl _)))) => JNull
  | GenLeaf (inl (inl (inl (inr b)))) => JBool b
  | GenLeaf (inl (inl (inr z))) => JInt z
  | GenLeaf (inl (inr f)) => JFloat f
  | GenLeaf (inr s) => JStr s
  | GenNode 0 ts => JArr (map jval_of_tree ts)
  | GenNode _ ts =>
      JObj (map (fun t =>
                   match t with
                   | GenNode _ [GenLeaf (inr k); tx] => (k, jval_of_tree tx)
                   | _ => (EmptyString, JNull)
                   end) ts)
  end.

Definition jval_of_to_tree : forall v, jval_of_tree (jval_to_tree v) = v.
Proof.
  fix IH 1. intros [| b | z | f | s | items | members]; simpl;
    try reflexivity.
  - f_equal. induction items as [|x items IHl]; simpl; [reflexivity|].
    f_equal; [apply IH|apply IHl].
  - f_equal. induction members as [|[k x] members IHl]; simpl;
      [reflexivity|].
    f_equal; [f_equal; apply IH|apply IHl].
Defined.

#[global] Instance jval_eq_dec : EqDecision jval.
Proof.
  intros x y. destruct (decide (jval_to_tree x = jval_to_tree y)) as [E|E].
  - left. rewrite <- (jval_of_to_tree x), <- (jval_of_to_tree y).
    by rewrite E.
  - right. intros ->. by apply E.
Defined.

#[global] Instance jval_countable : Countable jval :=
  inj_countable' jval_to_tree jval_of_tree jval_of_to_tree.

(** A JSON object / Python [dict] with string keys. *)
Abbreviation jobj := (gmap string jval).

(** Truth value of a JSON value ([not v] is its negation). *)
Definition jtruthy (v : jval) : bool :=
  match v with
  | JNull => false
  | JBool b => b
  | JInt z => negb (z =? 0)
  | JFloat (FFinite n _) => negb (n =? 0)
  | JFloat _ => true
  | JStr s => truthy s
  | JArr items => match items with [] => false | _ => true end
  | JObj members => match members with [] => false | _ => true end
  end.

(** Every item of a list is a [str]. *)
Definition all_strings (items : list jval) : bool :=
  forallb (fun c => match c with JStr _ => true | _ => false end) items.

(** ** Configuration constants *)

Definition ALG : string := "PS512".
Definition ISSUER : string := "JWT API Simulation".
Definition AUDIENCE : string := "JWT API Simulation".
Definition LEEWAY_SECONDS : Z := 2.
Definition COOKIE_NAME : string := "session_jwt".
Definition COOKIE_EXP : string := "jwt_exp".

(** ** The world: clock and entropy

    [reads] counts the clock readings made so far, [draws] the calls to
    [uuid4], [salts] the signatures produced (RSA-PSS salts its
    signatures). *)

Record world : Type := World { reads : nat; draws : nat; salts : nat }.

Definition M (A : Type) : Type := world -> A * world.

Definition ret {A} (a : A) : M A := fun w => (a, w).

Definition bind {A B} (m : M A) (k : A -> M B) : M B :=
  fun w => let '(a, w') := m w in k a w'.

Notation "'let*' x ':=' m 'in' k" := (bind m (fun x => k))
  (at level 10, x name, m at level 100, k at level 200).

(** ** Exceptions

    The PyJWT exception classes the verifier can raise, with their
    message, and Python's [TypeError] and [OverflowError].  All PyJWT
    classes listed derive from [InvalidTokenError]; the two built-in ones
    do not. *)

Inductive exn : Type :=
  | InvalidTokenError (msg : string)
  | DecodeError (msg : string)
  | InvalidAlgorithmError (msg : string)
  | InvalidSignatureError (msg : string)
  | MissingRequiredClaimError (claim : string)
  | InvalidIssuedAtError (msg : string)
  | ImmatureSignatureError (msg : string)
  | ExpiredSignatureError (msg : string)
  | InvalidIssuerError (msg : string)
  | InvalidAudienceError (msg : string)
  | TypeError (msg : string)
  | OverflowError (msg : string).

(** [str(e)] *)
Definition exn_str (e : exn) : string :=
  match e with
  | MissingRequiredClaimError c =>
      "Token is missing the " +:+ dquote +:+ c +:+ dquote +:+ " claim"
  | InvalidTokenError m | DecodeError m | InvalidAlgorithmError m
  | InvalidSignatureError m | InvalidIssuedAtError m
  | ImmatureSignatureError m | ExpiredSignatureError m
  | InvalidIssuerError m | InvalidAudienceError m | TypeError m
  | OverflowError m => m
  end.

(** [isinstance(e, jwt.InvalidTokenError)] *)
Definition is_InvalidTokenError (e : exn) : bool :=
  match e with TypeError _ | OverflowError _ => false | _ => true end.

(** ** HTTP requests and responses *)

Record request : Type := Request {
  form : gmap string string;
  cookies : gmap string string
}.

Inductive samesite_t : Type := Lax | Strict.

Inductive cookie_directive : Type :=
  | set_cookie (name value : string) (max_age : Z) (httponly secure : bool)
               (samesite : samesite_t) (path : string)
  | delete_cookie (name path : string).

Inductive body_t : Type :=
  | json_fail (error : string)
  | json_ok (message : string) (now : Z) (header claims : jobj)
  | json_keys (keys : list (gmap string string))
  | text (s : string)
  | redirect (location : string).

Record response : Type := Response {
  status : Z;
  body : body_t;
  resp_cookies : list cookie_directive;
  resp_headers : list (string * string)
}.

(** [jsonify(b), code] and a bare [jsonify(b)] (status 200). *)
Definition jsonify (b : body_t) (code : Z) : response :=
  Response code b [] [].

(** ** Keys

    A JWK as jwcrypto holds it: a dictionary of members, all of them
    strings (key type, modulus, exponents, [kid], [use], [alg]). *)

Record jwk : Type := JWK { members : gmap string string }.

(** jwcrypto's registries: the parameters common to all keys, all of
    them public, and for each key type its public and its private value
    parameters. *)
Definition common_params : list string :=
  ["kty"; "use"; "key_ops"; "alg"; "kid"; "x5u"; "x5c"; "x5t"; "x5t#S256"].

Definition public_values (kty : string) : list string :=
  if bool_decide (kty = "RSA") then ["n"; "e"]
  else if bool_decide (kty = "EC") then ["crv"; "x"; "y"]
  else if bool_decide (kty = "OKP") then ["crv"; "x"]
  else [].

Definition private_values (kty : string) : list string :=
  if bool_decide (kty = "RSA") then ["d"; "p"; "q"; "dp"; "dq"; "qi"; "oth"]
  else if bool_decide (kty = "EC") then ["d"]
  else if bool_decide (kty = "OKP") then ["d"]
  else if bool_decide (kty = "oct") then ["k"]
  else [].

Definition key_type (k : jwk) : string := default "" (members k !! "kty").

(** [key.has_public]: some public value parameter of the key's type is
    set (never for a symmetric key). *)
Definition has_public (k : jwk) : bool :=
  existsb (fun name => bool_decide (is_Some (members k !! name)))
    (public_values (key_type k)).

(** [json.loads(key.export_public())] for a key with a public half: the
    common parameters and the public value parameters that are set.  For
    a key without one, [export_public] raises; callers test [has_public]
    first. *)
Definition export_public (k : jwk) : gmap string string :=
  filter (fun kv => kv.1 ∈ common_params ++ public_values (key_type k))
    (members k).

(** [key["kid"] = v] *)
Definition jwk_set (name v : string) (k : jwk) : jwk :=
  JWK (<[name := v]> (members k)).

(** The process environment read at import time. *)
Record environ : Type := Environ {
  JWK_PRIVATE_FILE : option string;
  JWK_PRIVATE_JSON : option string;
  files : gmap string string
}.

(** The module-level state after import: it is never assigned again. *)
Record process : Type := Process { PRIV_JWK : jwk; KID : string }.

(** ** Compact serialization

    What PyJWT's [_load] extracts from a compact token: the payload (here
    already read as a JSON object, [None] when the bytes are not one), the
    signing input, the header and the signature. *)

Record loaded : Type := Loaded {
  ld_payload : option jobj;
  ld_signing_input : string;
  ld_header : jobj;
  ld_signature : string
}.

(** ** A reference instance of the parameters

    A small executable instance of the environment and of the libraries'
    primitives: the wire format writes the countable code of each segment
    in binary, a signature is the length of the signing input tagged with
    the algorithm and the key.  It serves to run the model on concrete
    requests. *)

Module Toy.

Definition clock_us (n : nat) : Z := 1700000000250000 + Z.of_nat n * 1000.

Definition uuid4_hex (n : nat) : string := "id" +:+ pretty n.

Definition from_json (txt : string) : option jwk :=
  if truthy txt
  then Some (JWK (<["kty" := "RSA"]> (<["n" := txt]> (<["d" := txt]> ∅))))
  else None.

Definition export_to_pem (private_key : bool) (k : jwk) : string :=
  default "" (members k !! "n").

Definition alg_sign (alg : string) (salt : nat) (key msg : string) : string :=
  alg +:+ ":" +:+ key +:+ ":" +:+ pretty (String.length msg).

Definition alg_verify (alg key msg sg : string) : bool :=
  bool_decide (sg = alg +:+ ":" +:+ key +:+ ":" +:+ pretty (String.length msg)).

Fixpoint bits (p : positive) : string :=
  match p with
  | xH => EmptyString
  | xO q => String "0"%char (bits q)
  | xI q => String "1"%char (bits q)
  end.

(** Reads one segment: binary digits up to a dot or the end. *)
Fixpoint read_bits (s : string) : option (positive * string) :=
  match s with
  | EmptyString => Some (xH, EmptyString)
  | String a r =>
      if Ascii.eqb a "."%char then Some (xH, r)
      else if Ascii.eqb a "0"%char then
        match read_bits r with
        | Some (q, r') => Some (xO q, r')
        | None => None
        end
      else if Ascii.eqb a "1"%char then
        match read_bits r with
        | Some (q, r') => Some (xI q, r')
        | None => None
        end
      else None
  end.

Definition b64url_json (o : jobj) : string := bits (encode o).

Definition b64url (b : string) : string := bits (encode b).

Definition jws_load (token : string) : string + loaded :=
  match read_bits token with
  | Some (ph, r1) =>
      match read_bits r1 with
      | Some (pc, r2) =>
          match read_bits r2 with
          | Some (ps, _) =>
              match decode ph, decode ps with
              | Some h, Some sg =>
                  inr (Loaded (decode pc) (bits ph +:+ "." +:+ bits pc) h sg)
              | None, _ => inl "Invalid header string"
              | _, None => inl "Invalid crypto padding"
              end
          | None => inl "Invalid crypto padding"
          end
      | None => inl "Invalid payload padding"
      end
  | None => inl "Invalid header padding"
  end.

Definition int_of_str (s : string) : option Z := None.

Definition env : environ := Environ None (Some "key-material") ∅.

Definition w0 : world := World 0 0 0.

(** The process the import produces from [env] in [w0], and the world
    it leaves: the key has no [kid], so one is drawn. *)
Definition proc : process :=
  Process
    (JWK (<["kid" := "id0"]>
            (<["kty" := "RSA"]>
               (<["n" := "key-material"]> (<["d" := "key-material"]> ∅)))))
    "id0".

Definition w1 : world := World 0 1 0.

(** A reader of plain decimal numerals with an optional minus sign, for
    [int(s)]. *)
Fixpoint dec_go (s : string) (acc : Z) : option Z :=
  match s with
  | EmptyString => Some acc
  | String a r =>
      let d := Z.of_nat (Ascii.nat_of_ascii a) - 48 in
      if (0 <=? d) && (d <=? 9) then dec_go r (acc * 10 + d) else None
  end.

Definition int_of_dec (s : string) : option Z :=
  match s with
  | EmptyString => None
  | String a r =>
      if Ascii.eqb a "-"%char
      then match r with
           | EmptyString => None
           | _ => Z.opp <$> dec_go r 0
           end
      else dec_go s 0
  end.

End Toy.

(** [d.setdefault(k, v)] *)
Definition setdefault (k v : string) (d : gmap string string)
  : gmap string string :=
  match d !! k with Some _ => d | None => <[k := v]> d end.

(** Seconds as clock units: the clock counts microseconds, claims count
    seconds. *)
Definition secs (z : Z) : Z := z * 1000000.

(** [int(t)] for a clock reading [t]: truncation towards zero.  The
    reading is an exact count of microseconds here and a float of seconds
    in the code; the two agree below 2^34 seconds. *)
Definition int_secs (us : Z) : Z := Z.quot us 1000000.

(** Result of Python's [int(v)]. *)
Inductive int_result : Type :=
  | IntOk (z : Z)
  | IntValueError
  | IntTypeError
  | IntOverflowError.

(** Sequencing of validators: the first exception raised wins. *)
Definition and_then (a b : option exn) : option exn :=
  match a with Some e => Some e | None => b end.

(** ** Pages

    The two page templates and what [render_template_string] receives: the
    template and the values of its variables.  The markup itself is not
    represented. *)

Inductive template : Type := INDEX_HTML | DEMO_HTML.

Record rendering : Type := render_template_string {
  page : template;
  context : jobj
}.

(** The scope a cookie directive acts on: its name and its path. *)
Definition cookie_scope (d : cookie_directive) : string * string :=
  match d with
  | set_cookie name _ _ _ _ _ path => (name, path)
  | delete_cookie name path => (name, path)
  end.

Section Program.

Set Default Proof Using "Type".

(** *** Parameters: the environment and the libraries' primitives *)

(** The n-th reading of the UTC clock, in microseconds since the epoch. *)
Variable clock_us : nat -> Z.
(** The n-th [uuid.uuid4().hex]. *)
Variable uuid4_hex : nat -> string.
(** [jwk.JWK.from_json]; [None] when it raises. *)
Variable from_json : string -> option jwk.
(** [key.export_to_pem(private_key=b)] *)
Variable export_to_pem : bool -> jwk -> string.
(** [alg_obj.sign] and [alg_obj.verify] of the algorithm registered under
    a name; the signer also receives the index of its salt. *)
Variable alg_sign : string -> nat -> string -> string -> string.
Variable alg_verify : string -> string -> string -> string -> bool.
(** [base64url_encode(json.dumps(obj))] and [base64url_encode(bytes)]. *)
Variable b64url_json : jobj -> string.
Variable b64url : string -> string.
(** PyJWT's [_load]; [inl msg] is [DecodeError(msg)]. *)
Variable jws_load : string -> string + loaded.
(** Python's [int(s)] on a string; [None] is [ValueError]. *)
Variable int_of_str : string -> option Z.

(** Reading back a compact serialization yields its parts. *)
Hypothesis jws_load_compact : forall (h c : jobj) (sg : string),
  jws_load ((b64url_json h +:+ "." +:+ b64url_json c) +:+ "." +:+ b64url sg)
  = inr (Loaded (Some c) (b64url_json h +:+ "." +:+ b64url_json c) h sg).

(** *** World operations *)

(** [datetime.now(timezone.utc).timestamp()] / [time.time()] *)
Definition clock_now : M Z :=
  fun w => (clock_us (reads w), World (S (reads w)) (draws w) (salts w)).

(** [uuid.uuid4().hex] *)
Definition uuid4 : M string :=
  fun w => (uuid4_hex (draws w), World (reads w) (S (draws w)) (salts w)).

Definition sign (alg key msg : string) : M string :=
  fun w => (alg_sign alg (salts w) key msg,
            World (reads w) (draws w) (S (salts w))).

(** *** Key material (lines 11-42) *)

(** [None] is the [RuntimeError]. *)
Definition _load_private_jwk_json (env : environ) : option string :=
  match (match JWK_PRIVATE_FILE env with
         | Some f => if truthy f then files env !! f else None
         | None => None
         end) with
  | Some content => Some content
  | None =>
      match JWK_PRIVATE_JSON env with
      | Some j => if truthy j then Some j else None
      | None => None
      end
  end.

(** The module-level statements that bind [PRIV_JWK] and [KID]; [None]
    when the import fails: no key text, a text [from_json] refuses, or a
    key without a public half, for which line 20 raises. *)
Definition startup (env : environ) : M (option process) :=
  match _load_private_jwk_json env with
  | None => ret None
  | Some txt =>
      match from_json txt with
      | None => ret None
      | Some k =>
          if negb (has_public k) then ret None
          else
            let* k' := match export_public k !! "kid" with
                       | None => let* u := uuid4 in ret (jwk_set "kid" u k)
                       | Some _ => ret k
                       end in
            ret (Some (Process k' (default "" (export_public k' !! "kid"))))
      end
  end.

(** [export_to_pem] is taken as given for both halves.  For a key
    without its private half [private_pem] raises, so what is stated
    below about a token that was issued is about a process whose key can
    sign. *)
Definition private_pem (p : process) : string :=
  export_to_pem true (PRIV_JWK p).

Definition public_pem (p : process) : string :=
  export_to_pem false (PRIV_JWK p).

Definition public_jwk_obj (p : process) : gmap string string :=
  setdefault "alg" ALG (setdefault "use" "sig" (export_public (PRIV_JWK p))).

(** *** PyJWT *)

(** [jwt.encode(payload, key, algorithm=..., headers=...)]: the header is
    [typ] and [alg] updated with [headers], the signing input is the two
    encoded segments joined by a dot, and the token appends the encoded
    signature.  (The caller's [headers] repeat [algorithm].) *)
Definition jwt_encode (payload : jobj) (key algorithm : string)
    (headers : jobj) : M string :=
  let header :=
    headers ∪ <["typ" := JStr "JWT"]> (<["alg" := JStr algorithm]> ∅) in
  let signing_input := b64url_json header +:+ "." +:+ b64url_json payload in
  let* signature := sign algorithm key signing_input in
  ret (signing_input +:+ "." +:+ b64url signature).

(** [jwt.get_unverified_header(token)]: [_load], then the check that a
    [kid] header parameter is a string. *)
Definition jwt_get_unverified_header (token : string) : exn + jobj :=
  match jws_load token with
  | inl msg => inl (DecodeError msg)
  | inr l =>
      match ld_header l !! "kid" with
      | None | Some (JStr _) => inr (ld_header l)
      | Some _ =>
          inl (InvalidTokenError "Key ID header parameter must be a string")
      end
  end.

(** [_verify_signature]: the header's [alg] must be one of [algorithms]
    before any algorithm object is looked up. *)
Definition verify_signature (l : loaded) (key : string)
    (algorithms : list string) : option exn :=
  match ld_header l !! "alg" with
  | None => Some (InvalidAlgorithmError "Algorithm not specified")
  | Some (JStr alg) =>
      if truthy alg && bool_decide (alg ∈ algorithms) then
        if alg_verify alg key (ld_signing_input l) (ld_signature l)
        then None
        else Some (InvalidSignatureError "Signature verification failed")
      else Some (InvalidAlgorithmError "The specified alg value is not allowed")
  | Some _ =>
      Some (InvalidAlgorithmError "The specified alg value is not allowed")
  end.

(** [int(v)] on a claim value: a [bool] is 0 or 1, a finite [float] is
    truncated towards zero, a NaN is a [ValueError], an infinity an
    [OverflowError]; [None], a [list] and a [dict] are a [TypeError]. *)
Definition py_int (v : jval) : int_result :=
  match v with
  | JNull => IntTypeError
  | JBool b => IntOk (if b then 1 else 0)
  | JInt z => IntOk z
  | JFloat (FFinite n d) => IntOk (Z.quot n (Zpos d))
  | JFloat (FInf _) => IntOverflowError
  | JFloat FNaN => IntValueError
  | JStr s =>
      match int_of_str s with Some z => IntOk z | None => IntValueError end
  | JArr _ | JObj _ => IntTypeError
  end.

Definition int_type_error : exn :=
  TypeError
    "int() argument must be a string, a bytes-like object or a real number".

Definition int_overflow_error : exn :=
  OverflowError "cannot convert float infinity to integer".

(** [_validate_required_claims]: [payload.get(claim) is None]. *)
Fixpoint validate_required_claims (payload : jobj) (require : list string)
    : option exn :=
  match require with
  | [] => None
  | claim :: rest =>
      match payload !! claim with
      | None | Some JNull => Some (MissingRequiredClaimError claim)
      | Some _ => validate_required_claims payload rest
      end
  end.

Definition validate_iat (v : jval) (now leeway : Z) : option exn :=
  match py_int v with
  | IntValueError =>
      Some (InvalidIssuedAtError "Issued At claim (iat) must be an integer.")
  | IntTypeError => Some int_type_error
  | IntOverflowError => Some int_overflow_error
  | IntOk iat =>
      if secs iat >? now + secs leeway
      then Some (ImmatureSignatureError "The token is not yet valid (iat)")
      else None
  end.

Definition validate_nbf (v : jval) (now leeway : Z) : option exn :=
  match py_int v with
  | IntValueError =>
      Some (DecodeError "Not Before claim (nbf) must be an integer.")
  | IntTypeError => Some int_type_error
  | IntOverflowError => Some int_overflow_error
  | IntOk nbf =>
      if secs nbf >? now + secs leeway
      then Some (ImmatureSignatureError "The token is not yet valid (nbf)")
      else None
  end.

Definition validate_exp (v : jval) (now leeway : Z) : option exn :=
  match py_int v with
  | IntValueError =>
      Some (DecodeError "Expiration Time claim (exp) must be an integer.")
  | IntTypeError => Some int_type_error
  | IntOverflowError => Some int_overflow_error
  | IntOk exp =>
      if secs exp <=? now - secs leeway
      then Some (ExpiredSignatureError "Signature has expired")
      else None
  end.

Definition validate_iss (payload : jobj) (issuer : string) : option exn :=
  match payload !! "iss" with
  | None => Some (MissingRequiredClaimError "iss")
  | Some v =>
      if bool_decide (v = JStr issuer) then None
      else Some (InvalidIssuerError "Invalid issuer")
  end.

(** [_validate_aud]: an absent or false [aud] is a missing claim; a
    string stands for the list holding it; the claim must be a list of
    strings, and must hold [audience]. *)
Definition validate_aud (payload : jobj) (audience : string) : option exn :=
  match payload !! "aud" with
  | None => Some (MissingRequiredClaimError "aud")
  | Some v =>
      if negb (jtruthy v) then Some (MissingRequiredClaimError "aud")
      else
        let audience_claims :=
          match v with
          | JStr a => Some [JStr a]
          | JArr items => Some items
          | _ => None
          end in
        match audience_claims with
        | None => Some (InvalidAudienceError "Invalid claim format in token")
        | Some items =>
            if negb (all_strings items)
            then Some (InvalidAudienceError "Invalid claim format in token")
            else if bool_decide (JStr audience ∈ items) then None
            else Some (InvalidAudienceError "Audience doesn't match")
        end
  end.

Definition when_present (payload : jobj) (claim : string)
    (check : jval -> option exn) : option exn :=
  match payload !! claim with Some v => check v | None => None end.

(** The claim checks made once the clock has been read: iat, nbf, exp,
    iss, aud, in this order. *)
Definition validate_at (payload : jobj) (audience issuer : string)
    (leeway now : Z) : option exn :=
  and_then (when_present payload "iat" (fun v => validate_iat v now leeway))
 (and_then (when_present payload "nbf" (fun v => validate_nbf v now leeway))
 (and_then (when_present payload "exp" (fun v => validate_exp v now leeway))
 (and_then (validate_iss payload issuer)
           (validate_aud payload audience)))).

(** [_validate_claims]: the required claims, then the clock is read and
    the timed checks, the issuer and the audience follow. *)
Definition validate_claims (payload : jobj) (require : list string)
    (audience issuer : string) (leeway : Z) : M (option exn) :=
  match validate_required_claims payload require with
  | Some e => ret (Some e)
  | None =>
      let* now := clock_now in
      ret (validate_at payload audience issuer leeway now)
  end.

(** [jwt.decode(token, key, algorithms=..., audience=..., issuer=...,
    options={"require": ...}, leeway=...)].  For a payload that is not a
    JSON object PyJWT's message goes on after [Invalid payload string]
    with a colon and the reason ([must be a json object], or the words of
    the JSON parser); only the fixed part is kept here, and no statement
    below depends on the message. *)
Definition jwt_decode (token key : string) (algorithms : list string)
    (audience issuer : string) (require : list string) (leeway : Z)
    : M (exn + jobj) :=
  match jws_load token with
  | inl msg => ret (inl (DecodeError msg))
  | inr l =>
      match verify_signature l key algorithms with
      | Some e => ret (inl e)
      | None =>
          match ld_payload l with
          | None => ret (inl (DecodeError "Invalid payload string"))
          | Some payload =>
              let* r :=
                validate_claims payload require audience issuer leeway in
              ret (match r with Some e => inl e | None => inr payload end)
          end
      end
  end.

(** *** The application (lines 402-505) *)

Definition issue_jwt_for_uid (p : process) (uid : string) : M (string * Z) :=
  let* now := clock_now in
  let iat := int_secs now in
  let nbf := iat - LEEWAY_SECONDS in
  let exp := iat + 30 in
  let* jti := uuid4 in
  let claims : jobj := list_to_map
    [("iss", JStr ISSUER); ("aud", JStr AUDIENCE); ("sub", JStr uid);
     ("iat", JInt iat); ("nbf", JInt nbf); ("exp", JInt exp);
     ("jti", JStr jti)] in
  let headers : jobj := list_to_map
    [("alg", JStr ALG); ("kid", JStr (KID p)); ("typ", JStr "JWT")] in
  let* token := jwt_encode claims (private_pem p) ALG headers in
  ret (token, exp).

Definition set_session (resp : response) (token : string) (exp : Z)
    : response :=
  Response (status resp) (body resp)
    (resp_cookies resp ++
     [set_cookie COOKIE_NAME token 32 true false Lax "/";
      set_cookie COOKIE_EXP (pretty exp) 32 false false Lax "/demo"])
    (resp_headers resp).

Definition clear_session (resp : response) : response :=
  Response (status resp) (body resp)
    (resp_cookies resp ++
     [delete_cookie COOKIE_NAME "/"; delete_cookie COOKIE_EXP "/demo"])
    (resp_headers resp).

(** [url_for(endpoint)] for the two endpoints redirected to. *)
Definition url_for (endpoint : string) : string :=
  if bool_decide (endpoint = "demo") then "/demo" else "/".

(** [make_response(redirect(location))] *)
Definition make_redirect (location : string) : response :=
  Response 302 (redirect location) [] [("Location", location)].

(** [POST /issue] *)
Definition issue (p : process) (req : request) : M response :=
  let uid := strip (or_empty (form req !! "uid")) in
  if negb (truthy uid) then ret (Response 400 (text "UID is required") [] [])
  else
    let* r := issue_jwt_for_uid p uid in
    let resp := make_redirect (url_for "demo") in
    ret (set_session resp r.1 r.2).

(** The [except] clauses of [api_ping], tried in order; [inl e] when no
    clause matches and the exception leaves the handler. *)
Definition api_ping_except (e : exn) : exn + response :=
  match e with
  | ExpiredSignatureError _ => inr (jsonify (json_fail "Token expired") 401)
  | InvalidAudienceError _ => inr (jsonify (json_fail "aud mismatch") 401)
  | InvalidIssuerError _ => inr (jsonify (json_fail "iss mismatch") 401)
  | _ =>
      if is_InvalidTokenError e
      then inr (jsonify (json_fail ("Invalid Token: " +:+ exn_str e)) 401)
      else inl e
  end.

(** [GET /api/ping] *)
Definition api_ping (p : process) (req : request) : M (exn + response) :=
  match cookies req !! COOKIE_NAME with
  | None => ret (inr (jsonify (json_fail "Missing JWT (Cookie)") 401))
  | Some token =>
      if negb (truthy token)
      then ret (inr (jsonify (json_fail "Missing JWT (Cookie)") 401))
      else
        match jwt_get_unverified_header token with
        | inl e =>
            ret (inr (jsonify
                   (json_fail ("Cannot read header: " +:+ exn_str e)) 400))
        | inr header =>
            let* r := jwt_decode token (public_pem p) [ALG] AUDIENCE ISSUER
                        ["exp"; "iat"; "nbf"; "iss"; "aud"; "sub"]
                        LEEWAY_SECONDS in
            match r with
            | inr claims =>
                let* t := clock_now in
                ret (inr (jsonify
                       (json_ok "Validation successful" (int_secs t)
                                header claims) 200))
            | inl e => ret (api_ping_except e)
            end
        end
  end.

(** [GET /reset] *)
Definition reset : response := clear_session (make_redirect (url_for "index")).

(** [GET /.well-known/jwks.json] *)
Definition jwks (p : process) : response :=
  Response 200 (json_keys [public_jwk_obj p]) []
    [("Cache-Control", "public, max-age=300")].

(** [GET /] *)
Definition index (p : process) : rendering :=
  render_template_string INDEX_HTML
    (list_to_map
       [("alg", JStr ALG); ("kid", JStr (KID p)); ("iss", JStr ISSUER);
        ("aud", JStr AUDIENCE)]).

(** [GET /demo]: the expiry shown is read from the display cookie; a
    missing or empty cookie, and one [int] refuses, give 0. *)
Definition demo (p : process) (req : request) : rendering :=
  let exp_cookie := cookies req !! COOKIE_EXP in
  let exp_int :=
    match exp_cookie with
    | Some c =>
        if truthy c
        then match int_of_str c with Some z => z | None => 0 end
        else 0
    | None => 0
    end in
  render_template_string DEMO_HTML
    (list_to_map
       [("alg", JStr ALG); ("kid", JStr (KID p)); ("iss", JStr ISSUER);
        ("aud", JStr AUDIENCE); ("exp", JInt exp_int)]).

(** *** Notions used in the statements *)

(** The claims and the header a verifier reads from a token. *)
Definition token_claims (token : string) : option jobj :=
  match jws_load token with inr l => ld_payload l | inl _ => None end.

Definition token_header (token : string) : option jobj :=
  match jws_load token with inr l => Some (ld_header l) | inl _ => None end.

(** The process holds a key pair of the pinned algorithm: what it signs
    with the private PEM verifies under the public PEM. *)
Definition keypair_ok (p : process) : Prop :=
  forall (salt : nat) (msg : string),
    alg_verify ALG (public_pem p) msg
      (alg_sign ALG salt (private_pem p) msg) = true.

(** The claims [api_ping] requires, in the order it lists them. *)
Definition REQUIRED : list string :=
  ["exp"; "iat"; "nbf"; "iss"; "aud"; "sub"].

(** The checks of the verifier, each stated on its own. *)
Definition token_absent (req : request) : Prop :=
  cookies req !! COOKIE_NAME = None \/ cookies req !! COOKIE_NAME = Some "".

Definition signature_valid (p : process) (l : loaded) : Prop :=
  ld_header l !! "alg" = Some (JStr ALG) /\
  alg_verify ALG (public_pem p) (ld_signing_input l) (ld_signature l) = true.

Definition claims_present (c : jobj) : Prop :=
  forall k, k ∈ REQUIRED -> exists v, c !! k = Some v /\ v <> JNull.

Definition int_claim (c : jobj) (k : string) (z : Z) : Prop :=
  exists v, c !! k = Some v /\ py_int v = IntOk z.

(** Neither [iat] nor [nbf] lies in the future (beyond the leeway). *)
Definition mature (c : jobj) (now : Z) : Prop :=
  exists iat nbf, int_claim c "iat" iat /\ int_claim c "nbf" nbf /\
    secs iat <= now + secs LEEWAY_SECONDS /\
    secs nbf <= now + secs LEEWAY_SECONDS.

Definition expired (c : jobj) (now : Z) : Prop :=
  exists exp, int_claim c "exp" exp /\ secs exp <= now - secs LEEWAY_SECONDS.

Definition unexpired (c : jobj) (now : Z) : Prop :=
  exists exp, int_claim c "exp" exp /\ now - secs LEEWAY_SECONDS < secs exp.

Definition issuer_matches (c : jobj) : Prop :=
  c !! "iss" = Some (JStr ISSUER).

Definition audience_matches (c : jobj) : Prop :=
  c !! "aud" = Some (JStr AUDIENCE).

(** What PyJWT accepts as naming the audience: the string itself, or a
    list of strings that holds it. *)
Definition audience_accepted (c : jobj) : Prop :=
  audience_matches c \/
  exists items, c !! "aud" = Some (JArr items) /\
                all_strings items = true /\ JStr AUDIENCE ∈ items.

(** The claims and the header that [issue_jwt_for_uid] hands to
    [jwt.encode], and the header [jwt.encode] then writes. *)
Definition claims_at (uid : string) (iat : Z) (jti : string) : jobj :=
  list_to_map
    [("iss", JStr ISSUER); ("aud", JStr AUDIENCE); ("sub", JStr uid);
     ("iat", JInt iat); ("nbf", JInt (iat - LEEWAY_SECONDS));
     ("exp", JInt (iat + 30)); ("jti", JStr jti)].

Definition header_at (p : process) : jobj :=
  (list_to_map
     [("alg", JStr ALG); ("kid", JStr (KID p)); ("typ", JStr "JWT")] : jobj)
  ∪ <["typ" := JStr "JWT"]> (<["alg" := JStr ALG]> ∅).

(** The exceptions of the signature check. *)
Definition signature_failures : list exn :=
  [InvalidAlgorithmError "Algorithm not specified";
   InvalidAlgorithmError "The specified alg value is not allowed";
   InvalidSignatureError "Signature verification failed"].

(** A failure response of [api_ping]. *)
Definition failure (error : string) (code : Z) : response :=
  jsonify (json_fail error) code.

(** [int(v)] returns or raises [ValueError]: the one exception of [int]
    that the timed checks turn into a token error. *)
Definition converts (v : jval) : Prop :=
  py_int v <> IntTypeError /\ py_int v <> IntOverflowError.

Definition timed_claims_convert (c : jobj) : Prop :=
  forall k v, k ∈ ["iat"; "nbf"; "exp"] -> c !! k = Some v -> converts v.

(** [jwt.get_unverified_header] raises: [_load] refuses the token,
    whichever segment is at fault, or the header's [kid] is not a
    string. *)
Definition cannot_load (token : string) : Prop :=
  (exists msg, jws_load token = inl msg) \/
  (exists l v, jws_load token = inr l /\ ld_header l !! "kid" = Some v /\
               forall s, v <> JStr s).

(** *** Two claims as the specification words them

    Stated over the same notions, to be compared with what [api_ping]
    does. *)

(** The header of the token cannot be read: [_load] fails, and not on
    the payload or the signature segment; or the [kid] is not a string. *)
Definition header_unreadable (token : string) : Prop :=
  (exists msg, jws_load token = inl msg /\
               msg <> "Invalid payload padding" /\
               msg <> "Invalid crypto padding") \/
  (exists l v, jws_load token = inr l /\ ld_header l !! "kid" = Some v /\
               forall s, v <> JStr s).


(** The failure answers: a JSON failure body with status 401 for a
    missing, wrongly signed, expired or mismatched token, status 400
    exactly when the header of the token is unreadable, and the fixed
    answer when there is no authority cookie. *)
Definition claimed_failure_statuses (p : process) (req : request)
    (w : world) : Prop :=
  let now := clock_us (reads w) in
  exists (r : response) (w' : world),
    api_ping p req w = (inr r, w') /\
    ((exists t h c,
        r = jsonify (json_ok "Validation successful" t h c) 200) \/
     (exists err, r = failure err 401) \/
     (exists err, r = failure err 400)) /\
    (status r = 400 <->
     exists token, cookies req !! COOKIE_NAME = Some token /\ token <> "" /\
                   header_unreadable token) /\
    (cookies req !! COOKIE_NAME = None ->
     r = failure "Missing JWT (Cookie)" 401) /\
    (token_absent req -> status r = 401) /\
    (forall token l, cookies req !! COOKIE_NAME = Some token -> token <> "" ->
       ~ header_unreadable token -> jws_load token = inr l ->
       (~ signature_valid p l -> status r = 401) /\
       (forall c, signature_valid p l -> ld_payload l = Some c ->
          claims_present c ->
          (expired c now -> status r = 401) /\
          (~ issuer_matches c -> status r = 401) /\
          (~ audience_matches c -> status r = 401))).

(** *** Basic facts *)

(** Membership in a literal list. *)
Ltac in_list := unfold REQUIRED, signature_failures;
                rewrite !elem_of_cons; auto 10.

Lemma truthy_true (s : string) : truthy s = true <-> s <> "".
Proof. destruct s; simpl; split; congruence. Qed.

Lemma or_empty_Some (s : string) : or_empty (Some s) = s.
Proof. by destruct s. Qed.

(** What [issue_jwt_for_uid] returns, with the oracles made explicit. *)
Lemma issue_jwt_for_uid_eq (p : process) (uid : string) (w : world) :
  issue_jwt_for_uid p uid w =
  (let iat := int_secs (clock_us (reads w)) in
   let c := claims_at uid iat (uuid4_hex (draws w)) in
   let si := b64url_json (header_at p) +:+ "." +:+ b64url_json c in
   ((si +:+ "." +:+ b64url (alg_sign ALG (salts w) (private_pem p) si),
     iat + 30),
    World (S (reads w)) (S (draws w)) (S (salts w)))).
Proof. reflexivity. Qed.

Lemma issue_jwt_for_uid_load (p : process) (uid : string) (w : world) :
  let iat := int_secs (clock_us (reads w)) in
  let c := claims_at uid iat (uuid4_hex (draws w)) in
  let si := b64url_json (header_at p) +:+ "." +:+ b64url_json c in
  jws_load (issue_jwt_for_uid p uid w).1.1 =
  inr (Loaded (Some c) si (header_at p)
         (alg_sign ALG (salts w) (private_pem p) si)).
Proof using jws_load_compact.
  rewrite issue_jwt_for_uid_eq. simpl. apply jws_load_compact.
Qed.

Lemma issue_jwt_for_uid_claims (p : process) (uid : string) (w : world) :
  token_claims (issue_jwt_for_uid p uid w).1.1 =
  Some (claims_at uid (int_secs (clock_us (reads w))) (uuid4_hex (draws w))).
Proof using jws_load_compact.
  unfold token_claims. by rewrite issue_jwt_for_uid_load.
Qed.

Lemma issue_jwt_for_uid_header (p : process) (uid : string) (w : world) :
  token_header (issue_jwt_for_uid p uid w).1.1 = Some (header_at p).
Proof using jws_load_compact.
  unfold token_header. by rewrite issue_jwt_for_uid_load.
Qed.

Lemma issue_jwt_for_uid_world (p : process) (uid : string) (w : world) :
  (issue_jwt_for_uid p uid w).2 =
  World (S (reads w)) (S (draws w)) (S (salts w)).
Proof. reflexivity. Qed.

Lemma issue_jwt_for_uid_truthy (p : process) (uid : string) (w : world) :
  truthy (issue_jwt_for_uid p uid w).1.1 = true.
Proof.
  rewrite issue_jwt_for_uid_eq. simpl.
  generalize (b64url_json (header_at p)). intros a. by destruct a.
Qed.

(** C2. Every token produced by [issue_jwt_for_uid] embeds integer claims
    [iat], [nbf] and [exp] with [exp - iat = 30] exactly and [nbf <= iat],
    whatever the subject and whatever the clock reads at issuance; the
    expiry returned next to the token is that same [exp]. *)
Theorem issued_validity_window (p : process) (uid : string) (w : world) :
  exists (c : jobj) (iat nbf exp : Z),
    token_claims (issue_jwt_for_uid p uid w).1.1 = Some c /\
    c !! "iat" = Some (JInt iat) /\
    c !! "nbf" = Some (JInt nbf) /\
    c !! "exp" = Some (JInt exp) /\
    exp - iat = 30 /\ nbf <= iat /\
    (issue_jwt_for_uid p uid w).1.2 = exp.
Proof using jws_load_compact.
  eexists _, (int_secs (clock_us (reads w))), _, _.
  split; [apply issue_jwt_for_uid_claims|].
  repeat split; try reflexivity; unfold LEEWAY_SECONDS; lia.
Qed.


(** *** Trimming *)

Lemma lstrip_all_space (s : string) : all_space s = true -> lstrip s = "".
Proof. induction s as [|a r IH]; simpl; [done|]. by destruct (isspace a). Qed.

Lemma rstrip_all_space (s : string) : all_space s = true -> rstrip s = "".
Proof.
  induction s as [|a r IH]; simpl; [done|].
  destruct (isspace a); [|done]. simpl. intros H. by rewrite IH.
Qed.

Lemma lstrip_app (l s : string) :
  all_space l = true -> lstrip (l +:+ s) = lstrip s.
Proof.
  induction l as [|a r IH]; simpl; [done|].
  destruct (isspace a); [|done]. simpl. apply IH.
Qed.

Lemma lstrip_solid (s : string) : starts_solid s = true -> lstrip s = s.
Proof. destruct s as [|a r]; simpl; [done|]. by destruct (isspace a). Qed.

Lemma rstrip_solid (s r : string) :
  ends_solid s = true -> all_space r = true -> rstrip (s +:+ r) = s.
Proof.
  intros Hs Hr. induction s as [|a s IH]; [done|].
  destruct s as [|b s].
  - simpl in Hs.
    change (rstrip (String a "" +:+ r)) with
      (match rstrip r with
       | EmptyString => if isspace a then EmptyString else String a EmptyString
       | r' => String a r'
       end).
    rewrite (rstrip_all_space r Hr).
    by destruct (isspace a).
  - change ((String a (String b s)) +:+ r) with (String a (String b s +:+ r)).
    change (rstrip (String a (String b s +:+ r))) with
      (match rstrip (String b s +:+ r) with
       | EmptyString => if isspace a then EmptyString else String a EmptyString
       | r' => String a r'
       end).
    rewrite IH; [done|exact Hs].
Qed.

(** Whitespace around a core that neither starts nor ends with
    whitespace is exactly what [strip] removes. *)
Lemma strip_core (l core r : string) :
  all_space l = true -> all_space r = true ->
  starts_solid core = true -> ends_solid core = true ->
  strip (l +:+ core +:+ r) = core.
Proof.
  intros Hl Hr Hs He. unfold strip. rewrite lstrip_app by done.
  rewrite lstrip_solid.
  - by apply rstrip_solid.
  - destruct core; [done|]. exact Hs.
Qed.

Lemma strip_all_space (s : string) : all_space s = true -> strip s = "".
Proof. intros H. unfold strip. by rewrite lstrip_all_space. Qed.

(** C6. An issue request whose [uid] field is missing, empty or made of
    whitespace only is answered with status 400 and the text
    [UID is required]; the response sets no cookie, and the world is
    left as it was: the clock is not read and no identifier is drawn,
    so the issuer is not reached. *)
Theorem issue_empty_subject (p : process) (req : request) (w : world) :
  strip (or_empty (form req !! "uid")) = "" ->
  issue p req w = (Response 400 (text "UID is required") [] [], w).
Proof. intros H. unfold issue. by rewrite H. Qed.

(** Missing, empty and whitespace-only fields all trim to the empty
    subject. *)
Lemma blank_uid_strips_empty (o : option string) :
  match o with Some s => all_space s = true | None => True end ->
  strip (or_empty o) = "".
Proof.
  destruct o as [s|]; [|done]. intros H.
  rewrite or_empty_Some. by apply strip_all_space.
Qed.


(** C10. When the submitted [uid] is a non-empty core wrapped in leading
    and trailing whitespace, [issue] answers with the redirect that
    sets the cookies, and the token in the authority cookie carries the
    core as its [sub] claim; whenever the raw field differs from the
    core, the raw field is not the subject. *)
Theorem issue_subject_trimmed (p : process) (req : request) (w : world)
    (l core r : string) :
  form req !! "uid" = Some (l +:+ core +:+ r) ->
  all_space l = true -> all_space r = true ->
  starts_solid core = true -> ends_solid core = true ->
  exists (token : string) (exp : Z) (w' : world) (c : jobj),
    issue p req w =
      (set_session (make_redirect "/demo") token exp, w') /\
    token_claims token = Some c /\
    c !! "sub" = Some (JStr core) /\
    (l +:+ core +:+ r <> core -> c !! "sub" <> Some (JStr (l +:+ core +:+ r))).
Proof using jws_load_compact.
  intros Hf Hl Hr Hs He.
  assert (Hne : truthy core = true) by (by destruct core).
  exists (issue_jwt_for_uid p core w).1.1, (issue_jwt_for_uid p core w).1.2,
         (issue_jwt_for_uid p core w).2.
  eexists. split; [|split; [apply issue_jwt_for_uid_claims|]].
  - unfold issue. rewrite Hf, or_empty_Some, strip_core by done.
    rewrite Hne. unfold bind, ret. change (negb true) with false.
    cbv beta iota.
    by destruct (issue_jwt_for_uid p core w) as [[t e] w1].
  - split; [reflexivity|]. intros Hd Heq.
    change (Some (JStr core) = Some (JStr (l +:+ core +:+ r))) in Heq.
    congruence.
Qed.

(** C8. Verification reads the request through the authority cookie
    only: two requests that carry the same [session_jwt] cookie get the
    same outcome in the same world (the same clock), however their other
    cookies and their form differ; in particular setting, changing or
    dropping the display cookie [jwt_exp] changes nothing. *)
Theorem api_ping_authority_cookie_only (p : process) (req1 req2 : request)
    (w : world) :
  cookies req1 !! COOKIE_NAME = cookies req2 !! COOKIE_NAME ->
  api_ping p req1 w = api_ping p req2 w /\
  (forall v : string,
     api_ping p (Request (form req1) (<[COOKIE_EXP := v]> (cookies req1))) w
     = api_ping p req2 w) /\
  api_ping p (Request (form req1) (delete COOKIE_EXP (cookies req1))) w
  = api_ping p req2 w.
Proof.
  intros H. unfold api_ping. cbn [cookies].
  repeat split; [|intros v; rewrite lookup_insert_ne by done
                 |rewrite lookup_delete_ne by done]; by rewrite H.
Qed.


(** C9. Every call to [issue_jwt_for_uid] draws a fresh identifier: when
    [uuid4] never repeats a value, the [jti] of a token differs from the
    [jti] of any token issued later in the same run, also for the same
    subject, and in particular from that of the next call. *)
Theorem issued_token_ids_distinct (p : process) (uid1 uid2 : string)
    (w w2 : world) :
  (forall i j : nat, uuid4_hex i = uuid4_hex j -> i = j) ->
  (draws (issue_jwt_for_uid p uid1 w).2 <= draws w2)%nat ->
  exists (c1 c2 : jobj) (j1 j2 : string),
    token_claims (issue_jwt_for_uid p uid1 w).1.1 = Some c1 /\
    token_claims (issue_jwt_for_uid p uid2 w2).1.1 = Some c2 /\
    c1 !! "jti" = Some (JStr j1) /\
    c2 !! "jti" = Some (JStr j2) /\
    j1 <> j2.
Proof using jws_load_compact.
  intros Hinj Hlater. rewrite issue_jwt_for_uid_world in Hlater.
  simpl in Hlater.
  eexists _, _, (uuid4_hex (draws w)), (uuid4_hex (draws w2)).
  split; [apply issue_jwt_for_uid_claims|].
  split; [apply issue_jwt_for_uid_claims|].
  repeat split; try reflexivity.
  intros Heq. apply Hinj in Heq. lia.
Qed.

(** *** The key identifier *)

Lemma setdefault_lookup_ne (k v k' : string) (d : gmap string string) :
  k <> k' -> setdefault k v d !! k' = d !! k'.
Proof.
  intros Hne. unfold setdefault. destruct (d !! k); [done|].
  by rewrite lookup_insert_ne.
Qed.

Lemma export_public_kid (k : jwk) :
  export_public k !! "kid" = members k !! "kid".
Proof.
  unfold export_public.
  destruct (members k !! "kid") as [v|] eqn:E.
  - apply map_lookup_filter_Some. split; [done|].
    apply elem_of_app. left. unfold common_params.
    rewrite !elem_of_cons. simpl. auto 10.
  - apply map_lookup_filter_None. left. done.
Qed.

Lemma public_jwk_obj_kid (p : process) :
  public_jwk_obj p !! "kid" = members (PRIV_JWK p) !! "kid".
Proof.
  unfold public_jwk_obj.
  rewrite !setdefault_lookup_ne by done. apply export_public_kid.
Qed.

(** After a successful import, [KID] is the [kid] member of [PRIV_JWK]. *)
Lemma startup_kid (env : environ) (w w' : world) (p : process) :
  startup env w = (Some p, w') ->
  members (PRIV_JWK p) !! "kid" = Some (KID p).
Proof.
  unfold startup. destruct (_load_private_jwk_json env) as [txt|]; [|done].
  destruct (from_json txt) as [k|]; [|done].
  destruct (negb (has_public k)); [done|].
  destruct (export_public k !! "kid") as [v|] eqn:E; unfold bind, ret, uuid4.
  - intros [= <- _]. simpl. rewrite E. simpl.
    by rewrite <- export_public_kid.
  - intros [= <- _]. simpl. rewrite export_public_kid. simpl.
    by rewrite !lookup_insert_eq.
Qed.

(** C7. [KID] is bound once, by the import: it is the [kid] of the
    loaded key when there is one (and then no identifier is drawn), and
    otherwise the one identifier drawn at that moment.  The process
    value is an argument of every handler and no handler returns one,
    so it stays what the import made it; on it, the JWK served by
    [jwks] carries [KID] as its [kid], and so does the header of every
    token [issue_jwt_for_uid] produces, in any world. *)
Theorem kid_discovery_matches_tokens (env : environ) (w w' : world)
    (p : process) :
  startup env w = (Some p, w') ->
  (exists k, body (jwks p) = json_keys [k] /\ k !! "kid" = Some (KID p)) /\
  (forall (uid : string) (w1 : world),
     exists h, token_header (issue_jwt_for_uid p uid w1).1.1 = Some h /\
               h !! "kid" = Some (JStr (KID p))) /\
  (exists txt k0,
     _load_private_jwk_json env = Some txt /\ from_json txt = Some k0 /\
     match export_public k0 !! "kid" with
     | Some kid0 => KID p = kid0 /\ PRIV_JWK p = k0 /\ w' = w
     | None =>
         KID p = uuid4_hex (draws w) /\
         PRIV_JWK p = jwk_set "kid" (uuid4_hex (draws w)) k0 /\
         w' = World (reads w) (S (draws w)) (salts w)
     end).
Proof using jws_load_compact.
  intros Hs. split; [|split].
  - eexists. split; [reflexivity|].
    rewrite public_jwk_obj_kid. by eapply startup_kid.
  - intros uid w1. eexists. split; [apply issue_jwt_for_uid_header|].
    reflexivity.
  - revert Hs. unfold startup.
    destruct (_load_private_jwk_json env) as [txt|]; [|done].
    destruct (from_json txt) as [k|] eqn:Ek; [|done].
    intros Hs. exists txt, k. split; [done|]. split; [done|].
    revert Hs. destruct (negb (has_public k)); [done|].
    destruct (export_public k !! "kid") as [v|] eqn:E; unfold bind, ret, uuid4.
    + intros [= <- <-]. simpl. by rewrite E.
    + intros [= <- <-]. simpl. rewrite export_public_kid. simpl.
      by rewrite !lookup_insert_eq.
Qed.


(** *** The verifier, check by check *)

Lemma verify_signature_pinned (l : loaded) (key : string) :
  verify_signature l key [ALG] = None <->
  ld_header l !! "alg" = Some (JStr ALG) /\
  alg_verify ALG key (ld_signing_input l) (ld_signature l) = true.
Proof.
  unfold verify_signature.
  destruct (ld_header l !! "alg") as [v|]; [destruct v as [| | | |a| |]|];
    try (split; [done|intros [? _]; done]).
  destruct (truthy a && bool_decide (a ∈ [ALG])) eqn:E.
  - apply andb_prop in E as [_ E]. apply bool_decide_eq_true in E.
    apply list_elem_of_singleton in E. subst a.
    destruct (alg_verify ALG key _ _); split; try done.
    intros [_ ?]; done.
  - split; [done|]. intros [[= ->] _]. done.
Qed.

Lemma verify_signature_failures (l : loaded) (key : string) (e : exn) :
  verify_signature l key [ALG] = Some e -> e ∈ signature_failures.
Proof.
  unfold verify_signature, signature_failures.
  destruct (ld_header l !! "alg") as [v|]; [destruct v as [| | | |a| |]|];
    try (intros [= <-]; in_list).
  destruct (truthy a && bool_decide (a ∈ [ALG])); [|intros [= <-]; in_list].
  destruct (alg_verify _ _ _ _); [done|]. intros [= <-]; in_list.
Qed.

(** A header that names another algorithm is refused before any
    signature is looked at. *)
Lemma verify_signature_other_alg (l : loaded) (key : string) :
  ld_header l !! "alg" <> Some (JStr ALG) ->
  exists msg, verify_signature l key [ALG] = Some (InvalidAlgorithmError msg).
Proof.
  intros Hne. unfold verify_signature.
  destruct (ld_header l !! "alg") as [v|]; [destruct v as [| | | |a| |]|];
    try by eexists.
  destruct (truthy a && bool_decide (a ∈ [ALG])) eqn:E; [|by eexists].
  apply andb_prop in E as [_ E]. apply bool_decide_eq_true in E.
  apply list_elem_of_singleton in E. by subst a.
Qed.

Lemma validate_required_present (c : jobj) (require : list string) :
  validate_required_claims c require = None <->
  forall k, k ∈ require -> exists v, c !! k = Some v /\ v <> JNull.
Proof.
  induction require as [|k0 rest IH]; simpl.
  - split; [|done]. intros _ k Hk. by apply elem_of_nil in Hk.
  - destruct (c !! k0) as [v|] eqn:E.
    + destruct v;
        [split; [done|]; intros H; destruct (H k0) as (v & Hv & Hn); [left|];
         congruence
        |rewrite IH; split;
         [intros H k Hk; apply elem_of_cons in Hk as [->|Hk];
          [by eexists|by apply H]
         |intros H k Hk; apply H; by right]..].
    + split; [done|]. intros H. destruct (H k0) as (v & Hv & Hn); [left|].
      congruence.
Qed.

Lemma validate_required_missing (c : jobj) (require : list string) (e : exn) :
  validate_required_claims c require = Some e ->
  exists k, k ∈ require /\ e = MissingRequiredClaimError k /\
            (c !! k = None \/ c !! k = Some JNull).
Proof.
  induction require as [|k0 rest IH]; simpl; [done|].
  destruct (c !! k0) as [v|] eqn:E.
  - destruct v;
      [intros [= <-]; exists k0; repeat split; [left|by right]
      |intros H; destruct (IH H) as (k & Hk & He & Hc); exists k;
       split; [by right|done]..].
  - intros [= <-]. exists k0. repeat split; [left|by left].
Qed.







Lemma validate_aud_passed (c : jobj) :
  validate_aud c AUDIENCE = None -> audience_accepted c.
Proof.
  unfold audience_accepted, audience_matches, validate_aud.
  destruct (c !! "aud") as [v|]; [|done].
  destruct (negb (jtruthy v)); [done|].
  destruct v as [| | | |a|items|]; try done.
  - simpl. case_bool_decide as Hin; [|done]. intros _. left.
    apply list_elem_of_singleton in Hin. by rewrite Hin.
  - destruct (all_strings items) eqn:Hs; [|done]. simpl.
    case_bool_decide as Hin; [|done]. intros _. right. by exists items.
Qed.



(** *** The protected call, stage by stage *)

Lemma api_ping_absent (p : process) (req : request) (w : world) :
  token_absent req ->
  api_ping p req w = (inr (failure "Missing JWT (Cookie)" 401), w).
Proof. intros [H|H]; unfold api_ping; by rewrite H. Qed.

Lemma api_ping_unreadable (p : process) (req : request) (w : world)
    (token : string) (e : exn) :
  cookies req !! COOKIE_NAME = Some token -> token <> "" ->
  jwt_get_unverified_header token = inl e ->
  api_ping p req w =
    (inr (failure ("Cannot read header: " +:+ exn_str e) 400), w).
Proof.
  intros Hc Ht He. unfold api_ping. rewrite Hc.
  apply truthy_true in Ht. by rewrite Ht, He.
Qed.

Lemma jwt_decode_loaded (token key : string) (l : loaded) (w : world) :
  jws_load token = inr l ->
  jwt_decode token key [ALG] AUDIENCE ISSUER REQUIRED LEEWAY_SECONDS w =
  match verify_signature l key [ALG] with
  | Some e => (inl e, w)
  | None =>
      match ld_payload l with
      | None => (inl (DecodeError "Invalid payload string"), w)
      | Some c =>
          match validate_required_claims c REQUIRED with
          | Some e => (inl e, w)
          | None =>
              (match validate_at c AUDIENCE ISSUER LEEWAY_SECONDS
                       (clock_us (reads w)) with
               | Some e => inl e
               | None => inr c
               end,
               World (S (reads w)) (draws w) (salts w))
          end
      end
  end.
Proof.
  intros Hl. unfold jwt_decode. rewrite Hl.
  destruct (verify_signature l key [ALG]); [done|].
  destruct (ld_payload l) as [c|]; [|done].
  unfold bind, validate_claims.
  by destruct (validate_required_claims c REQUIRED).
Qed.

(** The protected call on a token whose header is readable. *)
Lemma api_ping_readable (p : process) (req : request) (w : world)
    (token : string) (l : loaded) (h : jobj) :
  cookies req !! COOKIE_NAME = Some token -> token <> "" ->
  jws_load token = inr l -> jwt_get_unverified_header token = inr h ->
  api_ping p req w =
  match verify_signature l (public_pem p) [ALG] with
  | Some e => (api_ping_except e, w)
  | None =>
      match ld_payload l with
      | None => (api_ping_except (DecodeError "Invalid payload string"), w)
      | Some c =>
          match validate_required_claims c REQUIRED with
          | Some e => (api_ping_except e, w)
          | None =>
              match validate_at c AUDIENCE ISSUER LEEWAY_SECONDS
                      (clock_us (reads w)) with
              | Some e =>
                  (api_ping_except e, World (S (reads w)) (draws w) (salts w))
              | None =>
                  (inr (jsonify
                          (json_ok "Validation successful"
                             (int_secs (clock_us (S (reads w)))) h c) 200),
                   World (S (S (reads w))) (draws w) (salts w))
              end
          end
      end
  end.
Proof.
  intros Hc Ht Hl Hh. unfold api_ping. rewrite Hc.
  apply truthy_true in Ht. rewrite Ht, Hh.
  change (negb true) with false. unfold bind. cbv beta iota.
  change ["exp"; "iat"; "nbf"; "iss"; "aud"; "sub"] with REQUIRED.
  rewrite (jwt_decode_loaded _ _ _ _ Hl).
  destruct (verify_signature l (public_pem p) [ALG]); [done|].
  destruct (ld_payload l) as [c|]; [|done].
  destruct (validate_required_claims c REQUIRED); [done|].
  by destruct (validate_at c AUDIENCE ISSUER LEEWAY_SECONDS _).
Qed.


(** A token the issuer made is valid at any instant from its issuance
    until thirty seconds later. *)
Lemma validate_at_issued (uid jti : string) (t now : Z) :
  t <= now -> now - t < secs 30 ->
  validate_at (claims_at uid (int_secs t) jti) AUDIENCE ISSUER
    LEEWAY_SECONDS now = None.
Proof.
  intros H1 H2.
  assert (Hq : secs (int_secs t) - 1000000 < t < secs (int_secs t) + 1000000).
  { unfold secs, int_secs.
    pose proof (Z.quot_rem' t 1000000) as Hqr.
    pose proof (Z.rem_bound_abs t 1000000 ltac:(lia)) as Hb.
    lia. }
  unfold validate_at, when_present.
  change (claims_at uid (int_secs t) jti !! "iat")
    with (Some (JInt (int_secs t))).
  change (claims_at uid (int_secs t) jti !! "nbf")
    with (Some (JInt (int_secs t - LEEWAY_SECONDS))).
  change (claims_at uid (int_secs t) jti !! "exp")
    with (Some (JInt (int_secs t + 30))).
  unfold validate_iat, validate_nbf, validate_exp, py_int, LEEWAY_SECONDS
    in *. unfold secs in *.
  destruct (Z.gtb_spec (int_secs t * 1000000) (now + 2 * 1000000)); [lia|].
  destruct (Z.gtb_spec ((int_secs t - 2) * 1000000) (now + 2 * 1000000));
    [lia|].
  destruct (Z.leb_spec ((int_secs t + 30) * 1000000) (now - 2 * 1000000));
    [lia|].
  reflexivity.
Qed.


Lemma issued_header_readable (p : process) (uid : string) (w : world) :
  jwt_get_unverified_header (issue_jwt_for_uid p uid w).1.1 =
  inr (header_at p).
Proof using jws_load_compact.
  unfold jwt_get_unverified_header. by rewrite issue_jwt_for_uid_load.
Qed.

(** C1. A token issued for a valid subject (non-empty once trimmed) and
    presented straight away verifies: when the process holds a key pair
    and the verifier's clock reading is not before the issuer's and less
    than thirty seconds after it, [api_ping] on a request carrying the
    token answers 200 with [Validation successful], and the claims it
    returns have [sub] equal to the subject and [iss] and [aud] equal to
    [JWT API Simulation]. *)
Theorem issue_then_verify (p : process) (uid : string) (w : world)
    (req : request) :
  strip uid <> "" ->
  keypair_ok p ->
  clock_us (reads w) <= clock_us (S (reads w)) ->
  clock_us (S (reads w)) - clock_us (reads w) < secs 30 ->
  cookies req !! COOKIE_NAME = Some (issue_jwt_for_uid p uid w).1.1 ->
  exists (now : Z) (h c : jobj) (w' : world),
    api_ping p req (issue_jwt_for_uid p uid w).2 =
      (inr (jsonify (json_ok "Validation successful" now h c) 200), w') /\
    c !! "sub" = Some (JStr uid) /\
    c !! "iss" = Some (JStr "JWT API Simulation") /\
    c !! "aud" = Some (JStr "JWT API Simulation").
Proof using jws_load_compact.
  intros _ Hkey Hle Hlt Hc.
  pose proof (issue_jwt_for_uid_load p uid w) as Hl. cbv zeta in Hl.
  pose proof (issue_jwt_for_uid_truthy p uid w) as Ht.
  apply truthy_true in Ht.
  rewrite (api_ping_readable p req _ _ _ _ Hc Ht Hl
             (issued_header_readable p uid w)).
  rewrite issue_jwt_for_uid_world. cbn [reads draws salts].
  assert (Hv : verify_signature
                 (Loaded
                    (Some (claims_at uid (int_secs (clock_us (reads w)))
                             (uuid4_hex (draws w))))
                    (b64url_json (header_at p) +:+ "." +:+
                     b64url_json (claims_at uid (int_secs (clock_us (reads w)))
                                    (uuid4_hex (draws w))))
                    (header_at p)
                    (alg_sign ALG (salts w) (private_pem p)
                       (b64url_json (header_at p) +:+ "." +:+
                        b64url_json (claims_at uid
                                       (int_secs (clock_us (reads w)))
                                       (uuid4_hex (draws w))))))
                 (public_pem p) [ALG] = None).
  { apply verify_signature_pinned. split; [reflexivity|]. apply Hkey. }
  rewrite Hv. cbn [ld_payload].
  change (validate_required_claims
            (claims_at uid (int_secs (clock_us (reads w)))
               (uuid4_hex (draws w))) REQUIRED) with (@None exn).
  cbv iota. rewrite validate_at_issued by done.
  eexists _, _, _, _. split; [reflexivity|]. by repeat split.
Qed.


(** *** Which exceptions the handler catches *)

Lemma api_ping_except_caught (e : exn) :
  is_InvalidTokenError e = true ->
  exists err, api_ping_except e = inr (failure err 401).
Proof. destruct e; simpl; intros H; try done; by eexists. Qed.

(** Whatever the handler answers to an exception is a 401 failure. *)
Lemma api_ping_except_shape (e : exn) (r : response) :
  api_ping_except e = inr r -> exists err, r = failure err 401.
Proof. destruct e; simpl; intros [= <-]; by eexists. Qed.

Lemma signature_failures_caught (e : exn) :
  e ∈ signature_failures -> is_InvalidTokenError e = true.
Proof.
  unfold signature_failures. rewrite !elem_of_cons.
  intros [->|[->|[->|H]]]; try done. by apply elem_of_nil in H.
Qed.

Lemma validate_iat_caught (v : jval) (now : Z) (e : exn) :
  converts v -> validate_iat v now LEEWAY_SECONDS = Some e ->
  is_InvalidTokenError e = true.
Proof.
  unfold validate_iat, converts. intros [H1 H2].
  destruct (py_int v); [destruct (_ >? _)|..]; try done; by intros [= <-].
Qed.

Lemma validate_nbf_caught (v : jval) (now : Z) (e : exn) :
  converts v -> validate_nbf v now LEEWAY_SECONDS = Some e ->
  is_InvalidTokenError e = true.
Proof.
  unfold validate_nbf, converts. intros [H1 H2].
  destruct (py_int v); [destruct (_ >? _)|..]; try done; by intros [= <-].
Qed.

Lemma validate_exp_caught (v : jval) (now : Z) (e : exn) :
  converts v -> validate_exp v now LEEWAY_SECONDS = Some e ->
  is_InvalidTokenError e = true.
Proof.
  unfold validate_exp, converts. intros [H1 H2].
  destruct (py_int v); [destruct (_ <=? _)|..]; try done; by intros [= <-].
Qed.

Lemma validate_iss_caught (c : jobj) (e : exn) :
  validate_iss c ISSUER = Some e -> is_InvalidTokenError e = true.
Proof.
  unfold validate_iss. destruct (c !! "iss"); [|by intros [= <-]].
  case_bool_decide; by intros [= <-].
Qed.

Lemma validate_aud_caught (c : jobj) (e : exn) :
  validate_aud c AUDIENCE = Some e -> is_InvalidTokenError e = true.
Proof.
  unfold validate_aud. destruct (c !! "aud") as [v|]; [|by intros [= <-]].
  destruct (negb (jtruthy v)); [by intros [= <-]|].
  destruct v as [| | | |a|items|]; simpl; try by intros [= <-].
  - case_bool_decide; by intros [= <-].
  - destruct (all_strings items); simpl; [case_bool_decide|];
      by intros [= <-].
Qed.

(** When the timed claims convert, every exception of the claim checks
    is a token error. *)
Lemma validate_at_caught (c : jobj) (now : Z) (e : exn) :
  timed_claims_convert c ->
  validate_at c AUDIENCE ISSUER LEEWAY_SECONDS now = Some e ->
  is_InvalidTokenError e = true.
Proof.
  intros Hc. unfold validate_at, and_then.
  destruct (when_present c "iat" _) as [e1|] eqn:E1.
  { intros [= <-]. unfold when_present in E1.
    destruct (c !! "iat") as [v|] eqn:Hv; [|done].
    eapply validate_iat_caught; [|exact E1]. apply (Hc "iat"); [in_list|done]. }
  destruct (when_present c "nbf" _) as [e2|] eqn:E2.
  { intros [= <-]. unfold when_present in E2.
    destruct (c !! "nbf") as [v|] eqn:Hv; [|done].
    eapply validate_nbf_caught; [|exact E2]. apply (Hc "nbf"); [in_list|done]. }
  destruct (when_present c "exp" _) as [e3|] eqn:E3.
  { intros [= <-]. unfold when_present in E3.
    destruct (c !! "exp") as [v|] eqn:Hv; [|done].
    eapply validate_exp_caught; [|exact E3]. apply (Hc "exp"); [in_list|done]. }
  destruct (validate_iss c ISSUER) eqn:E4;
    [intros [= <-]; exact (validate_iss_caught _ _ E4)|].
  apply validate_aud_caught.
Qed.

Lemma header_readable_loaded (token : string) (h : jobj) :
  jwt_get_unverified_header token = inr h ->
  exists l, jws_load token = inr l.
Proof.
  unfold jwt_get_unverified_header.
  destruct (jws_load token) as [m|l]; [done|]. by exists l.
Qed.

(** [jwt.get_unverified_header] raises exactly on the tokens that cannot
    be loaded. *)
Lemma header_unread_iff (token : string) :
  (exists e, jwt_get_unverified_header token = inl e) <-> cannot_load token.
Proof.
  unfold jwt_get_unverified_header, cannot_load.
  destruct (jws_load token) as [m|l].
  - split; [intros _; left; by exists m|intros _; by eexists].
  - destruct (ld_header l !! "kid") as [v|] eqn:Hk.
    + destruct v as [| | | |a| |];
        try (split; [intros _; right; exists l; eexists; by repeat split
                    |intros _; by eexists]).
      split; [by intros [e He]|].
      intros [[m Hm]|(l' & v & [= <-] & Hv & Hs)]; [done|].
      rewrite Hk in Hv. injection Hv as <-. by destruct (Hs a).
    + split; [by intros [e He]|].
      intros [[m Hm]|(l' & v & [= <-] & Hv & Hs)]; [done|].
      by rewrite Hk in Hv.
Qed.

(** Every run of [api_ping]: what it does to the world, and the forms its
    outcome takes. *)
Lemma api_ping_outcomes (p : process) (req : request) (w : world) :
  let out := api_ping p req w in
  (draws out.2 = draws w /\ salts out.2 = salts w /\
   (reads w <= reads out.2 <= reads w + 2)%nat) /\
  ((exists err, out.1 = inr (failure err 401)) \/
   (exists token e,
      cookies req !! COOKIE_NAME = Some token /\ token <> "" /\
      jwt_get_unverified_header token = inl e /\
      out.1 = inr (failure ("Cannot read header: " +:+ exn_str e) 400)) \/
   (exists e, out.1 = api_ping_except e) \/
   (exists t h c,
      out.1 = inr (jsonify (json_ok "Validation successful" t h c) 200))).
Proof.
  cbv zeta.
  destruct (cookies req !! COOKIE_NAME) as [token|] eqn:Hc.
  2:{ rewrite api_ping_absent by (by left).
      split; [simpl; lia|]. left. by eexists. }
  destruct (decide (token = "")) as [->|Ht].
  { rewrite api_ping_absent by (by right).
    split; [simpl; lia|]. left. by eexists. }
  destruct (jwt_get_unverified_header token) as [e|h] eqn:Hh.
  { rewrite (api_ping_unreadable p req w token e Hc Ht Hh).
    split; [simpl; lia|]. right; left. by exists token, e. }
  destruct (header_readable_loaded _ _ Hh) as [l Hl].
  rewrite (api_ping_readable p req w token l h Hc Ht Hl Hh).
  destruct (verify_signature l (public_pem p) [ALG]) as [e|].
  { split; [simpl; lia|]. right; right; left. by eexists. }
  destruct (ld_payload l) as [c|].
  2:{ split; [simpl; lia|]. right; right; left. by eexists. }
  destruct (validate_required_claims c REQUIRED) as [e|].
  { split; [simpl; lia|]. right; right; left. by eexists. }
  destruct (validate_at c AUDIENCE ISSUER LEEWAY_SECONDS _) as [e|].
  { split; [simpl; lia|]. right; right; left. by eexists. }
  split; [simpl; lia|]. right; right; right. by eexists _, _, _.
Qed.

(** The answer to a token that loads and whose signature does not
    verify, or that lacks a required claim. *)
Lemma api_ping_unsigned (p : process) (req : request) (w : world)
    (token : string) (l : loaded) (h : jobj) :
  cookies req !! COOKIE_NAME = Some token -> token <> "" ->
  jws_load token = inr l -> jwt_get_unverified_header token = inr h ->
  ~ signature_valid p l ->
  exists e, e ∈ signature_failures /\
    api_ping p req w
    = (inr (failure ("Invalid Token: " +:+ exn_str e) 401), w).
Proof.
  intros Hc Ht Hl Hh Hn.
  rewrite (api_ping_readable p req w token l h Hc Ht Hl Hh).
  destruct (verify_signature l (public_pem p) [ALG]) as [e|] eqn:Hv.
  - exists e. pose proof (verify_signature_failures _ _ _ Hv) as Hin.
    split; [done|]. revert Hin. unfold signature_failures.
    rewrite !elem_of_cons. intros [->|[->|[->|H]]]; try done.
    by apply elem_of_nil in H.
  - destruct Hn. exact (proj1 (verify_signature_pinned l (public_pem p)) Hv).
Qed.

(** The protected call on a token that loads, is validly signed and holds
    every required claim: the clock is read and the claim checks decide. *)
Lemma api_ping_signed (p : process) (req : request) (w : world)
    (token : string) (l : loaded) (h c : jobj) :
  cookies req !! COOKIE_NAME = Some token -> token <> "" ->
  jws_load token = inr l -> jwt_get_unverified_header token = inr h ->
  signature_valid p l -> ld_payload l = Some c -> claims_present c ->
  api_ping p req w =
  match validate_at c AUDIENCE ISSUER LEEWAY_SECONDS (clock_us (reads w)) with
  | Some e => (api_ping_except e, World (S (reads w)) (draws w) (salts w))
  | None =>
      (inr (jsonify (json_ok "Validation successful"
                       (int_secs (clock_us (S (reads w)))) h c) 200),
       World (S (S (reads w))) (draws w) (salts w))
  end.
Proof.
  intros Hc Ht Hl Hh Hsig Hpay Hp.
  rewrite (api_ping_readable p req w token l h Hc Ht Hl Hh).
  rewrite (proj2 (verify_signature_pinned l (public_pem p)) Hsig), Hpay.
  by rewrite (proj2 (validate_required_present c REQUIRED) Hp).
Qed.

(** *** Only verified tokens are answered with their claims *)

Lemma validate_exp_passed (v : jval) (now : Z) :
  validate_exp v now LEEWAY_SECONDS = None ->
  exists exp, py_int v = IntOk exp /\ now - secs LEEWAY_SECONDS < secs exp.
Proof.
  unfold validate_exp. destruct (py_int v) as [exp| | |]; [|done..].
  destruct (Z.leb_spec (secs exp) (now - secs LEEWAY_SECONDS)); [done|].
  intros _. by exists exp.
Qed.

Lemma validate_iat_passed (v : jval) (now : Z) :
  validate_iat v now LEEWAY_SECONDS = None ->
  exists iat, py_int v = IntOk iat /\ secs iat <= now + secs LEEWAY_SECONDS.
Proof.
  unfold validate_iat. destruct (py_int v) as [iat| | |]; [|done..].
  destruct (Z.gtb_spec (secs iat) (now + secs LEEWAY_SECONDS)); [done|].
  intros _. by exists iat.
Qed.

Lemma validate_nbf_passed (v : jval) (now : Z) :
  validate_nbf v now LEEWAY_SECONDS = None ->
  exists nbf, py_int v = IntOk nbf /\ secs nbf <= now + secs LEEWAY_SECONDS.
Proof.
  unfold validate_nbf. destruct (py_int v) as [nbf| | |]; [|done..].
  destruct (Z.gtb_spec (secs nbf) (now + secs LEEWAY_SECONDS)); [done|].
  intros _. by exists nbf.
Qed.

Lemma validate_at_passed (c : jobj) (now : Z) :
  claims_present c ->
  validate_at c AUDIENCE ISSUER LEEWAY_SECONDS now = None ->
  mature c now /\ unexpired c now /\ issuer_matches c /\
  audience_accepted c.
Proof.
  intros Hp.
  destruct (Hp "iat") as (vi & Hi & _); [in_list|].
  destruct (Hp "nbf") as (vn & Hn & _); [in_list|].
  destruct (Hp "exp") as (ve & He & _); [in_list|].
  unfold validate_at, when_present, and_then. rewrite Hi, Hn, He.
  destruct (validate_iat vi now _) eqn:Ei; [done|].
  destruct (validate_nbf vn now _) eqn:En; [done|].
  destruct (validate_exp ve now _) eqn:Ee; [done|].
  destruct (validate_iss c ISSUER) eqn:Es; [done|].
  intros Ha.
  destruct (validate_iat_passed vi now Ei) as (iat & Pi & Li).
  destruct (validate_nbf_passed vn now En) as (nbf & Pn & Ln).
  destruct (validate_exp_passed ve now Ee) as (exp & Pe & Le).
  split; [|split; [|split]].
  - exists iat, nbf. repeat split; [by exists vi|by exists vn|done..].
  - exists exp. split; [by exists ve|done].
  - revert Es. unfold validate_iss, issuer_matches.
    destruct (c !! "iss") as [v|]; [|done].
    case_bool_decide; [by subst v|done].
  - by apply validate_aud_passed.
Qed.



(** A token that holds the required claims and whose timed claims
    convert, but that is expired or names another issuer or an audience
    that is not accepted, is refused by a token error. *)
Lemma validate_at_refuses (c : jobj) (now : Z) :
  claims_present c -> timed_claims_convert c ->
  expired c now \/ ~ issuer_matches c \/ ~ audience_accepted c ->
  exists e, validate_at c AUDIENCE ISSUER LEEWAY_SECONDS now = Some e /\
            is_InvalidTokenError e = true.
Proof.
  intros Hp Hc Hbad.
  destruct (validate_at c AUDIENCE ISSUER LEEWAY_SECONDS now) as [e|] eqn:E.
  { exists e. split; [done|]. by apply (validate_at_caught c now). }
  destruct (validate_at_passed c now Hp E) as (_ & Hu & Hi & Ha).
  destruct Hbad as [He|[Hn|Hn]]; [|done..].
  destruct He as (exp & (v & Hv & Pv) & Hle).
  destruct Hu as (exp' & (v' & Hv' & Pv') & Hlt).
  rewrite Hv in Hv'. injection Hv' as <-. rewrite Pv in Pv'.
  injection Pv' as <-. lia.
Qed.

(** C5 (as amended).  Every answer of the protected call other than the
    200 success is a JSON body [{ok: false, error}] with status 401 or
    400.  A request without the authority cookie, or with an empty one,
    gets exactly [Missing JWT (Cookie)] with 401.  A token that cannot be
    loaded, whichever of its segments is at fault, or whose [kid] is not a
    string, gets 400, and 400 is given to no other request.  A token that
    loads gets 401 when its signature does not verify under the pinned
    algorithm, when its payload is not an object, when it lacks a
    required claim, and, its timed claims being values [int] converts,
    when it is expired, names another issuer or names an audience that is
    not accepted; on such tokens the call always answers. *)
Theorem api_ping_failure_statuses (p : process) (req : request) (w : world) :
  let out := api_ping p req w in
  let now := clock_us (reads w) in
  (token_absent req -> out.1 = inr (failure "Missing JWT (Cookie)" 401)) /\
  (forall token, cookies req !! COOKIE_NAME = Some token -> token <> "" ->
     (cannot_load token ->
        exists err,
          out.1 = inr (failure ("Cannot read header: " +:+ err) 400)) /\
     (forall l, ~ cannot_load token -> jws_load token = inr l ->
        (~ signature_valid p l ->
           exists err, out.1 = inr (failure err 401)) /\
        (signature_valid p l -> ld_payload l = None ->
           exists err, out.1 = inr (failure err 401)) /\
        (forall c, signature_valid p l -> ld_payload l = Some c ->
           (~ claims_present c ->
              exists err, out.1 = inr (failure err 401)) /\
           (claims_present c -> timed_claims_convert c ->
              (exists r, out.1 = inr r) /\
              (expired c now \/ ~ issuer_matches c \/ ~ audience_accepted c ->
                 exists err, out.1 = inr (failure err 401)))))) /\
  (forall r, out.1 = inr r ->
     ((exists t h c,
         r = jsonify (json_ok "Validation successful" t h c) 200) \/
      (exists err, r = failure err 401) \/
      (exists err, r = failure err 400)) /\
     (status r = 400 <->
      exists token, cookies req !! COOKIE_NAME = Some token /\ token <> "" /\
                    cannot_load token)).
Proof.
  cbv zeta. split; [|split].
  - intros Ha. by rewrite api_ping_absent.
  - intros token Hc Ht. split.
    { intros Hl. apply header_unread_iff in Hl as [e He].
      rewrite (api_ping_unreadable p req w token e Hc Ht He). by eexists. }
    intros l Hn Hl.
    destruct (jwt_get_unverified_header token) as [e|h] eqn:Hh.
    { destruct Hn. apply header_unread_iff. by exists e. }
    split; [|split].
    { intros Hs.
      destruct (api_ping_unsigned p req w token l h Hc Ht Hl Hh Hs)
        as (e & _ & ->). by eexists. }
    { intros Hs Hp.
      rewrite (api_ping_readable p req w token l h Hc Ht Hl Hh).
      rewrite (proj2 (verify_signature_pinned l (public_pem p)) Hs), Hp.
      by eexists. }
    intros c Hs Hp. split.
    { intros Hm.
      rewrite (api_ping_readable p req w token l h Hc Ht Hl Hh).
      rewrite (proj2 (verify_signature_pinned l (public_pem p)) Hs), Hp.
      destruct (validate_required_claims c REQUIRED) as [e|] eqn:Hr.
      - apply validate_required_missing in Hr as (k & _ & -> & _).
        by eexists.
      - destruct Hm. exact (proj1 (validate_required_present c REQUIRED) Hr). }
    intros Hpres Hconv.
    rewrite (api_ping_signed p req w token l h c Hc Ht Hl Hh Hs Hp Hpres).
    split.
    { destruct (validate_at c AUDIENCE ISSUER LEEWAY_SECONDS _) as [e|] eqn:E;
        [|by eexists].
      apply (validate_at_caught c _ e Hconv), api_ping_except_caught in E
        as [err ->]. by eexists. }
    intros Hbad.
    destruct (validate_at_refuses c _ Hpres Hconv Hbad) as (e & -> & He).
    apply api_ping_except_caught in He as [err ->]. by eexists.
  - intros r Hr.
    destruct (api_ping_outcomes p req w)
      as [_ [[err H]|[(token & e & Hc & Ht & He & H)|[[e H]|(t & h & c & H)]]]];
      rewrite H in Hr.
    + injection Hr as <-. split; [right; left; by eexists|].
      split; [done|]. intros (token & Hc & Ht & Hl).
      apply header_unread_iff in Hl as [e He].
      rewrite (api_ping_unreadable p req w token e Hc Ht He) in H.
      discriminate H.
    + injection Hr as <-. split; [right; right; by eexists|].
      split; [|done]. intros _. exists token. repeat split; try done.
      apply header_unread_iff. by exists e.
    + apply api_ping_except_shape in Hr as [err ->].
      split; [right; left; by eexists|].
      split; [done|]. intros (token & Hc & Ht & Hl).
      apply header_unread_iff in Hl as [e' He].
      rewrite (api_ping_unreadable p req w token e' Hc Ht He) in H.
      simpl in H. destruct e; simpl in H;
        repeat match goal with
               | H : context [if ?b then _ else _] |- _ => destruct b
               end; discriminate H.
    + injection Hr as <-. split; [left; by eexists _, _, _|].
      split; [done|]. intros (token & Hc & Ht & Hl).
      apply header_unread_iff in Hl as [e He].
      rewrite (api_ping_unreadable p req w token e Hc Ht He) in H.
      discriminate H.
Qed.




(** A token whose header names another algorithm is refused, and the
    world is left as it was. *)
Lemma other_algorithm_rejected (p : process) (req : request) (w : world)
    (token : string) (l : loaded) :
  cookies req !! COOKIE_NAME = Some token -> jws_load token = inr l ->
  ld_header l !! "alg" <> Some (JStr ALG) ->
  exists err code,
    api_ping p req w = (inr (failure err code), w) /\
    (code = 400 \/ code = 401).
Proof.
  intros Hc Hl Ha.
  destruct (decide (token = "")) as [->|Ht].
  { eexists _, _. split; [apply api_ping_absent; by right|]. by right. }
  destruct (jwt_get_unverified_header token) as [e|h] eqn:Hh.
  { eexists _, _. split; [by eapply api_ping_unreadable|]. by left. }
  rewrite (api_ping_readable p req w token l h Hc Ht Hl Hh).
  destruct (verify_signature_other_alg l (public_pem p) Ha) as [msg ->].
  eexists _, _. split; [reflexivity|]. by right.
Qed.


(** *** Further properties: key material *)

(** X1. A readable key file takes precedence: when [JWK_PRIVATE_FILE]
    names an existing file, its content is the key text whatever
    [JWK_PRIVATE_JSON] holds. *)
Theorem key_file_takes_precedence (env : environ) (f content : string)
    (json : option string) :
  JWK_PRIVATE_FILE env = Some f -> f <> "" ->
  files env !! f = Some content ->
  _load_private_jwk_json (Environ (Some f) json (files env)) = Some content /\
  _load_private_jwk_json env = Some content.
Proof.
  intros Hf Hn Hc. apply truthy_true in Hn.
  unfold _load_private_jwk_json. cbn [JWK_PRIVATE_FILE files].
  by rewrite Hf, Hn, Hc.
Qed.

(** X2. Without usable key material the import fails and draws nothing:
    when the key file is unset, unnamed or absent, and the inline key is
    unset or empty, [startup] yields no process and leaves the world as it
    was; the same holds when the key text does not parse. *)
Theorem startup_without_key (env : environ) (w : world) :
  (match JWK_PRIVATE_FILE env with
   | Some f => f = "" \/ files env !! f = None
   | None => True
   end /\
   (JWK_PRIVATE_JSON env = None \/ JWK_PRIVATE_JSON env = Some "")) \/
  (exists txt, _load_private_jwk_json env = Some txt /\ from_json txt = None) ->
  startup env w = (None, w).
Proof.
  intros [[Hf Hj]|(txt & Ht & Hp)].
  - unfold startup, _load_private_jwk_json.
    destruct (JWK_PRIVATE_FILE env) as [f|].
    + destruct Hf as [->|Hf]; [|rewrite Hf; destruct (truthy f)];
        by destruct Hj as [->| ->].
    + by destruct Hj as [->| ->].
  - unfold startup. by rewrite Ht, Hp.
Qed.

Lemma setdefault_lookup_eq (k v : string) (d : gmap string string) :
  setdefault k v d !! k = Some (default v (d !! k)).
Proof.
  unfold setdefault. destruct (d !! k) as [x|] eqn:E; [by rewrite E|].
  by rewrite lookup_insert_eq.
Qed.

(** The served JWK at a member name. *)
Lemma public_jwk_obj_lookup (p : process) (name : string) :
  name <> "use" -> name <> "alg" ->
  public_jwk_obj p !! name = export_public (PRIV_JWK p) !! name.
Proof.
  intros H1 H2. unfold public_jwk_obj.
  by rewrite !setdefault_lookup_ne.
Qed.

(** What [export_public] keeps: the members jwcrypto registers as common
    or as public values of the key's type. *)
Lemma export_public_lookup (k : jwk) (name : string) :
  export_public k !! name =
  if bool_decide (name ∈ common_params ++ public_values (key_type k))
  then members k !! name else None.
Proof.
  unfold export_public. case_bool_decide as Hin.
  - destruct (members k !! name) as [v|] eqn:E.
    + apply map_lookup_filter_Some. by split.
    + apply map_lookup_filter_None. by left.
  - apply map_lookup_filter_None. right. intros v _ Hn. by apply Hin.
Qed.

(** No private value parameter is registered as common or public. *)
Lemma private_values_not_public (kty name : string) :
  name ∈ private_values kty -> name ∉ common_params ++ public_values kty.
Proof.
  unfold private_values, public_values, common_params.
  repeat case_bool_decide; subst; try done;
    rewrite ?elem_of_app, ?elem_of_cons, ?elem_of_nil;
    intros Hpriv Hpub;
    repeat match goal with
           | H : _ \/ _ |- _ => destruct H as [H|H]
           | H : False |- _ => destruct H
           end; subst; done.
Qed.

Lemma has_public_set_kid (k : jwk) (u : string) :
  has_public k = true -> has_public (jwk_set "kid" u k) = true.
Proof.
  unfold has_public, key_type, jwk_set. simpl.
  rewrite lookup_insert_ne by done.
  rewrite !existsb_exists. intros (name & Hin & Hb). exists name.
  split; [done|]. apply bool_decide_eq_true in Hb.
  apply bool_decide_eq_true.
  destruct (decide (name = "kid")) as [->|Hne].
  - rewrite lookup_insert_eq. by eexists.
  - by rewrite lookup_insert_ne.
Qed.

(** The key of an imported process has a public half. *)
Lemma startup_has_public (env : environ) (w w' : world) (p : process) :
  startup env w = (Some p, w') -> has_public (PRIV_JWK p) = true.
Proof.
  unfold startup. destruct (_load_private_jwk_json env) as [txt|]; [|done].
  destruct (from_json txt) as [k|]; [|done].
  destruct (has_public k) eqn:Hk; [|done]. simpl.
  destruct (export_public k !! "kid") as [v|]; unfold bind, ret, uuid4.
  - by intros [= <- _].
  - intros [= <- _]. simpl. by apply has_public_set_kid.
Qed.

(** X4. After a successful import the discovery endpoint serves the
    public half of the key and nothing else.  The answer is a 200 that
    sets no cookie and may be cached for 300 seconds; its single JWK
    carries every public value parameter of the key's type with the
    key's own value, at least one of them being set, the key's [kty],
    [KID] as its [kid], and [use] and [alg] as the key has them or else
    [sig] and [PS512]; it carries no private value parameter of the
    key's type, and no member at all outside jwcrypto's common and public
    parameters. *)
Theorem jwks_serves_public_members (env : environ) (w w' : world)
    (p : process) :
  startup env w = (Some p, w') ->
  exists k,
    jwks p = Response 200 (json_keys [k]) []
               [("Cache-Control", "public, max-age=300")] /\
    (forall name, name ∈ public_values (key_type (PRIV_JWK p)) ->
       k !! name = members (PRIV_JWK p) !! name) /\
    (exists name, name ∈ public_values (key_type (PRIV_JWK p)) /\
                  is_Some (k !! name)) /\
    k !! "kty" = members (PRIV_JWK p) !! "kty" /\
    k !! "kid" = Some (KID p) /\
    k !! "use" = Some (default "sig" (members (PRIV_JWK p) !! "use")) /\
    k !! "alg" = Some (default ALG (members (PRIV_JWK p) !! "alg")) /\
    (forall name, name ∈ private_values (key_type (PRIV_JWK p)) ->
       k !! name = None) /\
    (forall name, is_Some (k !! name) ->
       name ∈ common_params ++ public_values (key_type (PRIV_JWK p))).
Proof.
  intros Hs. exists (public_jwk_obj p). split; [reflexivity|].
  assert (Hcommon : forall name, name ∈ common_params ->
            export_public (PRIV_JWK p) !! name = members (PRIV_JWK p) !! name).
  { intros name Hin. rewrite export_public_lookup.
    rewrite bool_decide_eq_true_2; [done|]. apply elem_of_app. by left. }
  assert (Hpub : forall name, name ∈ public_values (key_type (PRIV_JWK p)) ->
            public_jwk_obj p !! name = members (PRIV_JWK p) !! name).
  { intros name Hin. rewrite public_jwk_obj_lookup.
    - rewrite export_public_lookup.
      rewrite bool_decide_eq_true_2; [done|]. apply elem_of_app. by right.
    - intros ->. revert Hin. unfold public_values.
      repeat case_bool_decide;
        rewrite ?elem_of_cons, ?elem_of_nil; intros Hin;
        repeat destruct Hin as [Hin|Hin]; done.
    - intros ->. revert Hin. unfold public_values.
      repeat case_bool_decide;
        rewrite ?elem_of_cons, ?elem_of_nil; intros Hin;
        repeat destruct Hin as [Hin|Hin]; done. }
  assert (Huse : public_jwk_obj p !! "use"
                 = Some (default "sig" (members (PRIV_JWK p) !! "use"))).
  { unfold public_jwk_obj. rewrite setdefault_lookup_ne by done.
    rewrite setdefault_lookup_eq, Hcommon; [done|].
    unfold common_params. rewrite !elem_of_cons. auto 10. }
  assert (Halg : public_jwk_obj p !! "alg"
                 = Some (default ALG (members (PRIV_JWK p) !! "alg"))).
  { unfold public_jwk_obj. rewrite setdefault_lookup_eq.
    rewrite setdefault_lookup_ne by done. rewrite Hcommon; [done|].
    unfold common_params. rewrite !elem_of_cons. auto 10. }
  repeat split; try done.
  - apply startup_has_public in Hs. unfold has_public in Hs.
    apply existsb_exists in Hs as (name & Hin & Hb).
    apply list_elem_of_In in Hin. apply bool_decide_eq_true in Hb.
    exists name. split; [done|]. by rewrite Hpub.
  - rewrite public_jwk_obj_lookup by done. apply Hcommon.
    unfold common_params. rewrite !elem_of_cons. auto 10.
  - rewrite public_jwk_obj_kid. by apply (startup_kid env w w').
  - intros name Hin.
    pose proof (private_values_not_public _ _ Hin) as Hn.
    destruct (decide (name = "use")) as [->|Hne1].
    { destruct Hn. apply elem_of_app. left.
      unfold common_params. rewrite !elem_of_cons. auto 10. }
    destruct (decide (name = "alg")) as [->|Hne2].
    { destruct Hn. apply elem_of_app. left.
      unfold common_params. rewrite !elem_of_cons. auto 10. }
    rewrite public_jwk_obj_lookup by done. rewrite export_public_lookup.
    by rewrite bool_decide_eq_false_2.
  - intros name [v Hv].
    destruct (decide (name = "use")) as [->|Hne1].
    { apply elem_of_app. left.
      unfold common_params. rewrite !elem_of_cons. auto 10. }
    destruct (decide (name = "alg")) as [->|Hne2].
    { apply elem_of_app. left.
      unfold common_params. rewrite !elem_of_cons. auto 10. }
    rewrite public_jwk_obj_lookup in Hv by done.
    rewrite export_public_lookup in Hv. by case_bool_decide.
Qed.


(** *** Further properties: the issue endpoint *)

Lemma lstrip_empty (s : string) : lstrip s = "" -> all_space s = true.
Proof.
  induction s as [|a r IH]; simpl; [done|].
  destruct (isspace a); [exact IH|done].
Qed.

Lemma rstrip_empty (s : string) : rstrip s = "" -> all_space s = true.
Proof.
  induction s as [|a r IH]; [done|].
  change (rstrip (String a r)) with
    (match rstrip r with
     | EmptyString => if isspace a then EmptyString else String a EmptyString
     | r' => String a r'
     end).
  destruct (rstrip r) as [|b r'] eqn:E; [|done].
  simpl. destruct (isspace a); [|done]. intros _. by apply IH.
Qed.

Lemma lstrip_starts_solid (s : string) :
  lstrip s <> "" -> starts_solid (lstrip s) = true.
Proof.
  induction s as [|a r IH]; simpl; [done|].
  destruct (isspace a) eqn:E; [exact IH|]. intros _. simpl. by rewrite E.
Qed.

Lemma rstrip_starts_solid (s : string) :
  starts_solid s = true -> starts_solid (rstrip s) = true.
Proof.
  destruct s as [|a r]; [done|]. simpl starts_solid. intros Ha.
  change (rstrip (String a r)) with
    (match rstrip r with
     | EmptyString => if isspace a then EmptyString else String a EmptyString
     | r' => String a r'
     end).
  destruct (rstrip r); [|exact Ha].
  destruct (isspace a) eqn:E; [done|]. simpl. by rewrite E.
Qed.

Lemma rstrip_ends_solid (s : string) :
  rstrip s <> "" -> ends_solid (rstrip s) = true.
Proof.
  induction s as [|a r IH]; [done|].
  change (rstrip (String a r)) with
    (match rstrip r with
     | EmptyString => if isspace a then EmptyString else String a EmptyString
     | r' => String a r'
     end).
  destruct (rstrip r) as [|b r'] eqn:E.
  - destruct (isspace a) eqn:Ea; [done|]. intros _. simpl. by rewrite Ea.
  - intros _. change (ends_solid (String b r') = true). by apply IH.
Qed.

(** What [strip] returns is empty exactly for whitespace-only strings,
    and otherwise neither starts nor ends with whitespace. *)
Lemma strip_empty_iff (s : string) : strip s = "" <-> all_space s = true.
Proof.
  split; [|apply strip_all_space].
  unfold strip. intros H. apply rstrip_empty in H.
  destruct (decide (lstrip s = "")) as [E|E]; [by apply lstrip_empty|].
  apply lstrip_starts_solid in E.
  destruct (lstrip s) as [|a r]; [done|].
  simpl in *. by destruct (isspace a).
Qed.

Lemma strip_solid (s : string) :
  strip s <> "" ->
  starts_solid (strip s) = true /\ ends_solid (strip s) = true.
Proof.
  unfold strip. intros H. split; [|by apply rstrip_ends_solid].
  apply rstrip_starts_solid, lstrip_starts_solid.
  intros E. rewrite E in H. done.
Qed.

Lemma or_empty_spec (o : option string) : or_empty o = default "" o.
Proof. destruct o as [s|]; [apply or_empty_Some|done]. Qed.

(** The answer of [issue] to a subject that is not blank. *)
Lemma issue_accepts (p : process) (req : request) (w : world) :
  strip (or_empty (form req !! "uid")) <> "" ->
  issue p req w =
  (let out := issue_jwt_for_uid p (strip (or_empty (form req !! "uid"))) w in
   (Response 302 (redirect "/demo")
      [set_cookie COOKIE_NAME out.1.1 32 true false Lax "/";
       set_cookie COOKIE_EXP (pretty out.1.2) 32 false false Lax "/demo"]
      [("Location", "/demo")],
    out.2)).
Proof.
  intros Hne. apply truthy_true in Hne. unfold issue. rewrite Hne.
  change (negb true) with false. unfold bind, ret. cbv beta iota zeta.
  by destruct (issue_jwt_for_uid p _ w) as [[t e] w1].
Qed.

(** X5. [issue] refuses exactly the blank subjects: the answer has status
    400 if and only if the [uid] field is missing, empty or made of
    whitespace only; the refusal is the plain text [UID is required],
    sets no cookie and is given before the clock, the identifier source
    or the key is used. *)
Theorem issue_rejects_exactly_blank (p : process) (req : request)
    (w : world) :
  (status (issue p req w).1 = 400 <->
   all_space (default "" (form req !! "uid")) = true) /\
  (all_space (default "" (form req !! "uid")) = true ->
   issue p req w = (Response 400 (text "UID is required") [] [], w)).
Proof.
  rewrite <- or_empty_spec, <- strip_empty_iff.
  destruct (decide (strip (or_empty (form req !! "uid")) = "")) as [E|E].
  - unfold issue. rewrite E. simpl. by split.
  - rewrite (issue_accepts p req w E). simpl. by split.
Qed.


(** X6. A successful [issue] answers with a 302 redirect to [/demo] that
    sets exactly two cookies, both with max-age 32 and SameSite Lax: the
    authority cookie [session_jwt], HttpOnly, on path [/], holding the
    token; and the display cookie [jwt_exp], readable by scripts, on path
    [/demo], holding in decimal the very [exp] claim of that token.  The
    call reads the clock once, draws one identifier and signs once. *)
Theorem issue_sets_session_cookies (p : process) (req : request)
    (w : world) :
  strip (or_empty (form req !! "uid")) <> "" ->
  exists (token : string) (exp : Z) (c : jobj),
    issue p req w =
      (Response 302 (redirect "/demo")
         [set_cookie "session_jwt" token 32 true false Lax "/";
          set_cookie "jwt_exp" (pretty exp) 32 false false Lax "/demo"]
         [("Location", "/demo")],
       World (S (reads w)) (S (draws w)) (S (salts w))) /\
    token <> "" /\
    token_claims token = Some c /\
    c !! "exp" = Some (JInt exp).
Proof using jws_load_compact.
  intros Hne. rewrite (issue_accepts p req w Hne).
  set (uid := strip (or_empty (form req !! "uid"))).
  exists (issue_jwt_for_uid p uid w).1.1, (issue_jwt_for_uid p uid w).1.2.
  eexists. split; [reflexivity|]. split; [|split].
  - apply truthy_true, issue_jwt_for_uid_truthy.
  - apply issue_jwt_for_uid_claims.
  - reflexivity.
Qed.

(** X7. Every token handed out by [issue] names a subject that is not
    empty and neither starts nor ends with whitespace: whenever the answer
    sets the authority cookie, the [sub] claim of its token is such a
    string, the trimmed [uid] field. *)
Theorem issue_subject_well_formed (p : process) (req : request) (w : world)
    (token : string) (max_age : Z) (httponly secure : bool)
    (samesite : samesite_t) (path : string) :
  set_cookie COOKIE_NAME token max_age httponly secure samesite path
    ∈ resp_cookies (issue p req w).1 ->
  exists (c : jobj) (sub : string),
    token_claims token = Some c /\
    c !! "sub" = Some (JStr sub) /\
    sub = strip (default "" (form req !! "uid")) /\
    sub <> "" /\ starts_solid sub = true /\ ends_solid sub = true.
Proof using jws_load_compact.
  rewrite <- or_empty_spec.
  destruct (decide (strip (or_empty (form req !! "uid")) = "")) as [E|E].
  { unfold issue. rewrite E. simpl. intros H. by apply elem_of_nil in H. }
  rewrite (issue_accepts p req w E). cbn [fst resp_cookies].
  rewrite !elem_of_cons, elem_of_nil.
  intros [H|[H|H]]; [|discriminate H|done].
  injection H as -> _ _ _ _ _.
  eexists _, _. split; [apply issue_jwt_for_uid_claims|].
  split; [reflexivity|]. split; [reflexivity|]. split; [done|].
  by apply strip_solid.
Qed.

(** *** Further properties: the lifetime of a token *)

(** The protected call on a token just issued, at any clock reading. *)
Lemma api_ping_issued (p : process) (uid : string) (w w2 : world)
    (req : request) :
  keypair_ok p ->
  cookies req !! COOKIE_NAME = Some (issue_jwt_for_uid p uid w).1.1 ->
  api_ping p req w2 =
  (let c := claims_at uid (int_secs (clock_us (reads w)))
              (uuid4_hex (draws w)) in
   match validate_at c AUDIENCE ISSUER LEEWAY_SECONDS (clock_us (reads w2)) with
   | Some e => (api_ping_except e, World (S (reads w2)) (draws w2) (salts w2))
   | None =>
       (inr (jsonify
               (json_ok "Validation successful"
                  (int_secs (clock_us (S (reads w2)))) (header_at p) c) 200),
        World (S (S (reads w2))) (draws w2) (salts w2))
   end).
Proof using jws_load_compact.
  intros Hkey Hc.
  pose proof (issue_jwt_for_uid_load p uid w) as Hl. cbv zeta in Hl.
  pose proof (issue_jwt_for_uid_truthy p uid w) as Ht.
  apply truthy_true in Ht.
  rewrite (api_ping_readable p req _ _ _ _ Hc Ht Hl
             (issued_header_readable p uid w)).
  rewrite (proj2 (verify_signature_pinned _ (public_pem p)));
    [|split; [reflexivity|apply Hkey]].
  cbn [ld_payload].
  change (validate_required_claims
            (claims_at uid (int_secs (clock_us (reads w)))
               (uuid4_hex (draws w))) REQUIRED) with (@None exn).
  reflexivity.
Qed.

(** The timed checks on the issuer's claims, by the verifier's clock. *)
Lemma validate_at_issued_window (uid jti : string) (iat now : Z) :
  secs iat - secs LEEWAY_SECONDS <= now ->
  validate_at (claims_at uid iat jti) AUDIENCE ISSUER LEEWAY_SECONDS now =
  if secs (iat + 30) <=? now - secs LEEWAY_SECONDS
  then Some (ExpiredSignatureError "Signature has expired")
  else None.
Proof.
  intros Hlow. unfold validate_at, when_present.
  change (claims_at uid iat jti !! "iat") with (Some (JInt iat)).
  change (claims_at uid iat jti !! "nbf")
    with (Some (JInt (iat - LEEWAY_SECONDS))).
  change (claims_at uid iat jti !! "exp") with (Some (JInt (iat + 30))).
  unfold validate_iat, validate_nbf, validate_exp, py_int.
  unfold LEEWAY_SECONDS, secs in *.
  destruct (Z.gtb_spec (iat * 1000000) (now + 2 * 1000000)); [lia|].
  destruct (Z.gtb_spec ((iat - 2) * 1000000) (now + 2 * 1000000)); [lia|].
  unfold and_then at 1 2.
  by destruct (Z.leb_spec ((iat + 30) * 1000000) (now - 2 * 1000000)).
Qed.

(** X8. A token expires: once the verifier's clock has reached the
    token's [exp] plus the leeway, that is 32 seconds after its [iat],
    [api_ping] answers [Token expired] with 401 to a token this process
    issued, and returns no claims. *)
Theorem issued_token_expires (p : process) (uid : string) (w w2 : world)
    (req : request) :
  keypair_ok p ->
  cookies req !! COOKIE_NAME = Some (issue_jwt_for_uid p uid w).1.1 ->
  secs (int_secs (clock_us (reads w)) + 32) <= clock_us (reads w2) ->
  api_ping p req w2 =
    (inr (failure "Token expired" 401),
     World (S (reads w2)) (draws w2) (salts w2)).
Proof using jws_load_compact.
  intros Hkey Hc Hlate. rewrite (api_ping_issued p uid w w2 req Hkey Hc).
  cbv zeta. rewrite validate_at_issued_window
    by (unfold secs, LEEWAY_SECONDS in *; lia).
  destruct (Z.leb_spec (secs (int_secs (clock_us (reads w)) + 30))
              (clock_us (reads w2) - secs LEEWAY_SECONDS)); [done|].
  unfold secs, LEEWAY_SECONDS in *. lia.
Qed.

(** X9. The acceptance window of a token reaches the leeway on both
    sides: [api_ping] accepts a token this process issued whenever the
    verifier's clock reads at least [iat] minus 2 seconds and less than
    [iat] plus 32 seconds, so also when it runs up to two seconds behind
    the issuer's; the answer carries the token's own header and claims. *)
Theorem issued_token_accepted_within_leeway (p : process) (uid : string)
    (w w2 : world) (req : request) :
  keypair_ok p ->
  cookies req !! COOKIE_NAME = Some (issue_jwt_for_uid p uid w).1.1 ->
  secs (int_secs (clock_us (reads w)) - 2) <= clock_us (reads w2) ->
  clock_us (reads w2) < secs (int_secs (clock_us (reads w)) + 32) ->
  exists (now : Z) (c : jobj),
    api_ping p req w2 =
      (inr (jsonify (json_ok "Validation successful" now (header_at p) c)
              200),
       World (S (S (reads w2))) (draws w2) (salts w2)) /\
    token_claims (issue_jwt_for_uid p uid w).1.1 = Some c /\
    c !! "sub" = Some (JStr uid).
Proof using jws_load_compact.
  intros Hkey Hc Hlow Hhigh. rewrite (api_ping_issued p uid w w2 req Hkey Hc).
  cbv zeta. rewrite validate_at_issued_window
    by (unfold secs, LEEWAY_SECONDS in *; lia).
  destruct (Z.leb_spec (secs (int_secs (clock_us (reads w)) + 30))
              (clock_us (reads w2) - secs LEEWAY_SECONDS)).
  { unfold secs, LEEWAY_SECONDS in *. lia. }
  eexists _, _. split; [reflexivity|].
  split; [apply issue_jwt_for_uid_claims|reflexivity].
Qed.


(** *** Further properties: what the handlers leave alone *)

(** X10. Verification changes nothing: whatever the request, and whether
    [api_ping] answers or an exception leaves it, it draws no identifier
    and signs nothing, and it reads the clock at most twice (not at all
    when the token fails before the timed checks); an answer, of
    whatever status, sets no cookie and no header. *)
Theorem api_ping_leaves_session_alone (p : process) (req : request)
    (w : world) :
  draws (api_ping p req w).2 = draws w /\
  salts (api_ping p req w).2 = salts w /\
  (reads w <= reads (api_ping p req w).2 <= reads w + 2)%nat /\
  (token_absent req \/
   (exists token, cookies req !! COOKIE_NAME = Some token /\
                  cannot_load token) ->
   (api_ping p req w).2 = w) /\
  (forall r, (api_ping p req w).1 = inr r ->
     resp_cookies r = [] /\ resp_headers r = []).
Proof.
  destruct (api_ping_outcomes p req w) as [(Hd & Hs & Hr) Hout].
  split; [done|]. split; [done|]. split; [lia|]. split.
  - intros [Ha|(token & Hc & Hl)]; [by rewrite api_ping_absent|].
    destruct (decide (token = "")) as [->|Ht].
    { rewrite api_ping_absent; [done|by right]. }
    apply header_unread_iff in Hl as [e He].
    by rewrite (api_ping_unreadable p req w token e Hc Ht He).
  - intros r Hans.
    destruct Hout
      as [[err H]|[(token & e & _ & _ & _ & H)|[[e H]|(t & h & c & H)]]];
      rewrite H in Hans;
      [| |apply api_ping_except_shape in Hans as [err ->]|];
      by simplify_eq.
Qed.

(** X11. [reset] undoes what [issue] sets: it answers with a 302 redirect
    to [/] whose cookie directives are deletions, one for each cookie a
    successful [issue] sets and on the same name and path, in the same
    order. *)
Theorem reset_clears_issued_cookies (p : process) (req : request)
    (w : world) :
  strip (or_empty (form req !! "uid")) <> "" ->
  status reset = 302 /\ body reset = redirect "/" /\
  resp_headers reset = [("Location", "/")] /\
  resp_cookies reset =
    (fun d => delete_cookie (cookie_scope d).1 (cookie_scope d).2)
      <$> resp_cookies (issue p req w).1.
Proof.
  intros Hne. rewrite (issue_accepts p req w Hne). by repeat split.
Qed.

(** *** Further properties: the pages *)

(** [str(z)] is never empty. *)
Lemma pretty_N_go_nonempty (x : N) (s : string) :
  s <> "" -> pretty_N_go x s <> "".
Proof.
  revert s. induction (N.lt_wf_0 x) as [x _ IH]. intros s Hs.
  destruct (decide (x = 0%N)) as [->|Hx]; [by rewrite pretty_N_go_0|].
  rewrite pretty_N_go_step by lia. apply IH; [apply N.div_lt; lia|done].
Qed.

Lemma pretty_Z_nonempty (z : Z) : pretty z <> "".
Proof.
  destruct z as [|q|q]; [done| |done].
  unfold pretty, pretty_Z, pretty, pretty_positive, pretty, pretty_N.
  case_decide; [done|]. rewrite pretty_N_go_step by lia.
  by apply pretty_N_go_nonempty.
Qed.

(** X12. The demo page shows the expiry of the token just issued: on a
    request that carries the display cookie a successful [issue] has set,
    and provided [int] reads that decimal numeral back, [demo] passes to
    its template the [exp] claim of the token set in the authority
    cookie. *)
Theorem demo_shows_issued_expiry (p : process) (req req2 : request)
    (w : world) (v : string) (max_age : Z) (httponly secure : bool)
    (samesite : samesite_t) (path : string) :
  set_cookie COOKIE_EXP v max_age httponly secure samesite path
    ∈ resp_cookies (issue p req w).1 ->
  cookies req2 !! COOKIE_EXP = Some v ->
  int_of_str (pretty (int_secs (clock_us (reads w)) + 30))
    = Some (int_secs (clock_us (reads w)) + 30) ->
  exists (token : string) (c : jobj),
    set_cookie COOKIE_NAME token 32 true false Lax "/"
      ∈ resp_cookies (issue p req w).1 /\
    token_claims token = Some c /\
    page (demo p req2) = DEMO_HTML /\
    context (demo p req2) !! "exp" = c !! "exp" /\
    c !! "exp" = Some (JInt (int_secs (clock_us (reads w)) + 30)).
Proof using jws_load_compact.
  destruct (decide (strip (or_empty (form req !! "uid")) = "")) as [E|E].
  { unfold issue. rewrite E. simpl. intros H. by apply elem_of_nil in H. }
  rewrite (issue_accepts p req w E). cbn [fst resp_cookies].
  set (uid := strip (or_empty (form req !! "uid"))).
  rewrite !elem_of_cons, elem_of_nil.
  intros [H|[H|H]]; [discriminate H| |done].
  injection H as -> _ _ _ _. intros Hc Hint.
  exists (issue_jwt_for_uid p uid w).1.1. eexists.
  split; [left|]. split; [apply issue_jwt_for_uid_claims|].
  split; [reflexivity|]. split; [|reflexivity].
  unfold demo. rewrite Hc.
  change (issue_jwt_for_uid p uid w).1.2
    with (int_secs (clock_us (reads w)) + 30).
  rewrite Hint.
  assert (Ht : truthy (pretty (int_secs (clock_us (reads w)) + 30)) = true)
    by apply truthy_true, pretty_Z_nonempty.
  rewrite Ht. reflexivity.
Qed.


(** X13. The demo page never fails on its cookie and reads nothing else:
    a display cookie that is missing, empty, or that [int] refuses gives
    the expiry 0; one that [int] reads gives that number; and two requests
    with the same display cookie get the same page, whatever their
    authority cookie. *)
Theorem demo_expiry_fallback (p : process) (req : request) :
  (cookies req !! COOKIE_EXP = None \/
   cookies req !! COOKIE_EXP = Some "" \/
   (exists v, cookies req !! COOKIE_EXP = Some v /\ int_of_str v = None) ->
   context (demo p req) !! "exp" = Some (JInt 0)) /\
  (forall v z, cookies req !! COOKIE_EXP = Some v -> v <> "" ->
     int_of_str v = Some z ->
     context (demo p req) !! "exp" = Some (JInt z)) /\
  (forall req2, cookies req !! COOKIE_EXP = cookies req2 !! COOKIE_EXP ->
     demo p req = demo p req2).
Proof.
  split; [|split].
  - intros [H|[H|(v & H & Hv)]]; unfold demo; rewrite H; [done|done|].
    rewrite Hv. by destruct (truthy v).
  - intros v z H Hne Hv. apply truthy_true in Hne.
    unfold demo. by rewrite H, Hne, Hv.
  - intros req2 H. unfold demo. by rewrite H.
Qed.

(** X14. The pages advertise what tokens carry: the [alg] and [kid] that
    [index] and [demo] pass to their templates are those in the header of
    every token this process issues, and the [iss] and [aud] they pass
    are those in its claims. *)
Theorem pages_show_token_parameters (p : process) (req : request)
    (uid : string) (w : world) :
  exists (h c : jobj),
    token_header (issue_jwt_for_uid p uid w).1.1 = Some h /\
    token_claims (issue_jwt_for_uid p uid w).1.1 = Some c /\
    Forall (fun r : rendering =>
              context r !! "alg" = h !! "alg" /\
              context r !! "kid" = h !! "kid" /\
              context r !! "iss" = c !! "iss" /\
              context r !! "aud" = c !! "aud")
           [index p; demo p req].
Proof using jws_load_compact.
  eexists _, _. split; [apply issue_jwt_for_uid_header|].
  split; [apply issue_jwt_for_uid_claims|].
  repeat constructor.
Qed.

(** X15. From the form to the protected call: when a request to [issue]
    is accepted, a request that brings back the authority cookie it set
    is accepted by [api_ping] in the world [issue] leaves, and the claims
    returned name the trimmed [uid] as subject; this for a process that
    holds a key pair and a clock that, between the two calls, does not
    run backwards nor advances by thirty seconds. *)
Theorem issue_then_ping (p : process) (req req2 : request) (w : world)
    (token : string) (max_age : Z) (httponly secure : bool)
    (samesite : samesite_t) (path : string) :
  set_cookie COOKIE_NAME token max_age httponly secure samesite path
    ∈ resp_cookies (issue p req w).1 ->
  cookies req2 !! COOKIE_NAME = Some token ->
  keypair_ok p ->
  clock_us (reads w) <= clock_us (S (reads w)) ->
  clock_us (S (reads w)) - clock_us (reads w) < secs 30 ->
  exists (now : Z) (h c : jobj) (w' : world),
    api_ping p req2 (issue p req w).2 =
      (inr (jsonify (json_ok "Validation successful" now h c) 200), w') /\
    c !! "sub" = Some (JStr (strip (default "" (form req !! "uid")))) /\
    token_claims token = Some c.
Proof using jws_load_compact.
  rewrite <- or_empty_spec.
  destruct (decide (strip (or_empty (form req !! "uid")) = "")) as [E|E].
  { unfold issue. rewrite E. simpl. intros H. by apply elem_of_nil in H. }
  rewrite (issue_accepts p req w E). cbn [fst snd resp_cookies].
  set (uid := strip (or_empty (form req !! "uid"))).
  rewrite !elem_of_cons, elem_of_nil.
  intros [H|[H|H]]; [|discriminate H|done].
  injection H as -> _ _ _ _ _. intros Hc Hkey Hle Hlt.
  rewrite (api_ping_issued p uid w _ req2 Hkey Hc).
  rewrite issue_jwt_for_uid_world. cbn [reads draws salts]. cbv zeta.
  rewrite validate_at_issued by done.
  eexists _, _, _, _. split; [reflexivity|].
  split; [reflexivity|]. apply issue_jwt_for_uid_claims.
Qed.

End Program.

(** * The pinned algorithm *)

Lemma verify_signature_agree
    (alg_verify alg_verify' : string -> string -> string -> string -> bool)
    (l : loaded) (key : string) :
  (forall k msg sg, alg_verify ALG k msg sg = alg_verify' ALG k msg sg) ->
  verify_signature alg_verify l key [ALG] =
  verify_signature alg_verify' l key [ALG].
Proof.
  intros Hagree. unfold verify_signature.
  destruct (ld_header l !! "alg") as [[| | | |a| |]|]; try done.
  destruct (truthy a && bool_decide (a ∈ [ALG])) eqn:E; [|done].
  apply andb_prop in E as [_ E]. apply bool_decide_eq_true in E.
  apply list_elem_of_singleton in E. subst a. by rewrite Hagree.
Qed.

(** C4. A token whose header names any algorithm other than [PS512]
    (absent, [none], [HS256], anything) is refused by [api_ping] with a
    failure body, which carries no claims, and status 400 or 401, and
    nothing else happens: the clock is not even read.  The set of accepted
    algorithms is the constant [[ALG]]: the answer of [api_ping] depends on
    the library's verifiers only through the one registered for [PS512],
    so whatever the header names, no other verifier can make a token
    pass. *)
Theorem algorithm_pinned (clock_us : nat -> Z)
    (export_to_pem : bool -> jwk -> string)
    (alg_verify alg_verify' : string -> string -> string -> string -> bool)
    (jws_load : string -> string + loaded) (int_of_str : string -> option Z)
    (p : process) (req : request) (w : world) :
  (forall token l,
     cookies req !! COOKIE_NAME = Some token -> jws_load token = inr l ->
     ld_header l !! "alg" <> Some (JStr ALG) ->
     exists err code,
       api_ping clock_us export_to_pem alg_verify jws_load int_of_str p req w
       = (inr (failure err code), w) /\
       (code = 400 \/ code = 401)) /\
  ((forall k msg sg, alg_verify ALG k msg sg = alg_verify' ALG k msg sg) ->
   api_ping clock_us export_to_pem alg_verify jws_load int_of_str p req w =
   api_ping clock_us export_to_pem alg_verify' jws_load int_of_str p req w).
Proof.
  split.
  - intros token l. apply other_algorithm_rejected.
  - intros Hagree. unfold api_ping.
    destruct (cookies req !! COOKIE_NAME) as [token|]; [|done].
    destruct (negb (truthy token)); [done|].
    destruct (jwt_get_unverified_header jws_load token); [done|].
    unfold bind, jwt_decode.
    destruct (jws_load token) as [m|l]; [done|].
    by rewrite (verify_signature_agree alg_verify alg_verify' l _ Hagree).
Qed.

(** * The reference instance satisfies the assumptions *)

Lemma string_app_assoc (a b c : string) : (a +:+ b) +:+ c = a +:+ (b +:+ c).
Proof.
  induction a as [|x a IH]; [done|].
  change (String x ((a +:+ b) +:+ c) = String x (a +:+ (b +:+ c))).
  by rewrite IH.
Qed.

Lemma toy_read_bits_dot (p : positive) (r : string) :
  Toy.read_bits (Toy.bits p +:+ "." +:+ r) = Some (p, r).
Proof. induction p as [p IH|p IH|]; simpl; [by rewrite IH..|done]. Qed.

Lemma toy_read_bits_end (p : positive) :
  Toy.read_bits (Toy.bits p) = Some (p, "").
Proof. induction p as [p IH|p IH|]; simpl; [by rewrite IH..|done]. Qed.

Lemma toy_load_compact (h c : jobj) (sg : string) :
  Toy.jws_load
    ((Toy.b64url_json h +:+ "." +:+ Toy.b64url_json c) +:+ "." +:+ Toy.b64url sg)
  = inr (Loaded (Some c) (Toy.b64url_json h +:+ "." +:+ Toy.b64url_json c) h sg).
Proof.
  unfold Toy.jws_load, Toy.b64url_json, Toy.b64url.
  rewrite string_app_assoc.
  change (("." +:+ Toy.bits (encode c)) +:+ "." +:+ Toy.bits (encode sg))
    with ("." +:+ (Toy.bits (encode c) +:+ "." +:+ Toy.bits (encode sg))).
  rewrite toy_read_bits_dot, toy_read_bits_dot, toy_read_bits_end.
  by rewrite !decode_encode.
Qed.

Lemma toy_uuid4_inj (i j : nat) : Toy.uuid4_hex i = Toy.uuid4_hex j -> i = j.
Proof.
  unfold Toy.uuid4_hex. intros H. simpl in H. injection H as H.
  by apply (inj pretty).
Qed.

Lemma toy_keypair_ok (p : process) :
  keypair_ok Toy.export_to_pem Toy.alg_sign Toy.alg_verify p.
Proof. intros salt msg. by apply bool_decide_eq_true_2. Qed.

Lemma toy_startup :
  startup Toy.uuid4_hex Toy.from_json Toy.env Toy.w0 = (Some Toy.proc, Toy.w1).
Proof. vm_compute. reflexivity. Qed.

(** * The theorems at work on the reference instance *)

Lemma issue_then_verify_witness :
  exists (now : Z) (h c : jobj) (w' : world),
    api_ping Toy.clock_us Toy.export_to_pem Toy.alg_verify Toy.jws_load
      Toy.int_of_str Toy.proc
      (Request ∅
         {[COOKIE_NAME :=
             (issue_jwt_for_uid Toy.clock_us Toy.uuid4_hex Toy.export_to_pem
                Toy.alg_sign Toy.b64url_json Toy.b64url Toy.proc "user-123"
                Toy.w1).1.1]})
      (issue_jwt_for_uid Toy.clock_us Toy.uuid4_hex Toy.export_to_pem
         Toy.alg_sign Toy.b64url_json Toy.b64url Toy.proc "user-123"
         Toy.w1).2
    = (inr (jsonify (json_ok "Validation successful" now h c) 200), w') /\
    c !! "sub" = Some (JStr "user-123") /\
    c !! "iss" = Some (JStr "JWT API Simulation") /\
    c !! "aud" = Some (JStr "JWT API Simulation").
Proof.
  apply (issue_then_verify Toy.clock_us Toy.uuid4_hex Toy.export_to_pem
           Toy.alg_sign Toy.alg_verify Toy.b64url_json Toy.b64url
           Toy.jws_load Toy.int_of_str toy_load_compact Toy.proc "user-123"
           Toy.w1).
  - vm_compute. discriminate.
  - apply toy_keypair_ok.
  - vm_compute. discriminate.
  - vm_compute. reflexivity.
  - apply lookup_singleton_eq.
Defined.

Lemma issued_validity_window_witness :
  exists (c : jobj) (iat nbf exp : Z),
    token_claims Toy.jws_load
      (issue_jwt_for_uid Toy.clock_us Toy.uuid4_hex Toy.export_to_pem
         Toy.alg_sign Toy.b64url_json Toy.b64url Toy.proc "user-123"
         Toy.w1).1.1 = Some c /\
    c !! "iat" = Some (JInt iat) /\
    c !! "nbf" = Some (JInt nbf) /\
    c !! "exp" = Some (JInt exp) /\
    exp - iat = 30 /\ nbf <= iat /\
    (issue_jwt_for_uid Toy.clock_us Toy.uuid4_hex Toy.export_to_pem
       Toy.alg_sign Toy.b64url_json Toy.b64url Toy.proc "user-123"
       Toy.w1).1.2 = exp.
Proof.
  exact (issued_validity_window Toy.clock_us Toy.uuid4_hex Toy.export_to_pem
           Toy.alg_sign Toy.b64url_json Toy.b64url Toy.jws_load
           toy_load_compact Toy.proc "user-123" Toy.w1).
Defined.

Lemma issue_empty_subject_witness :
  issue Toy.clock_us Toy.uuid4_hex Toy.export_to_pem Toy.alg_sign
    Toy.b64url_json Toy.b64url Toy.proc
    (Request {["uid" := "   "]} ∅) Toy.w1
  = (Response 400 (text "UID is required") [] [], Toy.w1).
Proof.
  apply (issue_empty_subject Toy.clock_us Toy.uuid4_hex Toy.export_to_pem
           Toy.alg_sign Toy.b64url_json Toy.b64url Toy.proc
           (Request {["uid" := "   "]} ∅) Toy.w1).
  vm_compute. reflexivity.
Defined.

Lemma kid_discovery_matches_tokens_witness :
  (exists k, body (jwks Toy.proc) = json_keys [k] /\ k !! "kid" = Some "id0") /\
  (forall (uid : string) (w : world),
     exists h,
       token_header Toy.jws_load
         (issue_jwt_for_uid Toy.clock_us Toy.uuid4_hex Toy.export_to_pem
            Toy.alg_sign Toy.b64url_json Toy.b64url Toy.proc uid w).1.1
       = Some h /\
       h !! "kid" = Some (JStr "id0")).
Proof.
  pose proof (kid_discovery_matches_tokens Toy.clock_us Toy.uuid4_hex
                Toy.from_json Toy.export_to_pem Toy.alg_sign Toy.b64url_json
                Toy.b64url Toy.jws_load toy_load_compact Toy.env Toy.w0
                Toy.w1 Toy.proc toy_startup) as (Hjwks & Htok & _).
  split; [exact Hjwks|exact Htok].
Defined.

Lemma api_ping_authority_cookie_only_witness :
  api_ping Toy.clock_us Toy.export_to_pem Toy.alg_verify Toy.jws_load
    Toy.int_of_str Toy.proc
    (Request ∅ {[COOKIE_NAME := "abc"; COOKIE_EXP := "1700000030"]}) Toy.w1
  = api_ping Toy.clock_us Toy.export_to_pem Toy.alg_verify Toy.jws_load
      Toy.int_of_str Toy.proc
      (Request ∅ {[COOKIE_NAME := "abc"; COOKIE_EXP := "9999999999"]}) Toy.w1.
Proof.
  apply (api_ping_authority_cookie_only Toy.clock_us Toy.export_to_pem
           Toy.alg_verify Toy.jws_load Toy.int_of_str Toy.proc
           (Request ∅ {[COOKIE_NAME := "abc"; COOKIE_EXP := "1700000030"]})
           (Request ∅ {[COOKIE_NAME := "abc"; COOKIE_EXP := "9999999999"]})
           Toy.w1).
  vm_compute. reflexivity.
Defined.

Lemma issued_token_ids_distinct_witness :
  exists (c1 c2 : jobj) (j1 j2 : string),
    token_claims Toy.jws_load
      (issue_jwt_for_uid Toy.clock_us Toy.uuid4_hex Toy.export_to_pem
         Toy.alg_sign Toy.b64url_json Toy.b64url Toy.proc "user-123"
         Toy.w1).1.1 = Some c1 /\
    token_claims Toy.jws_load
      (issue_jwt_for_uid Toy.clock_us Toy.uuid4_hex Toy.export_to_pem
         Toy.alg_sign Toy.b64url_json Toy.b64url Toy.proc "user-123"
         (World 1 2 1)).1.1 = Some c2 /\
    c1 !! "jti" = Some (JStr j1) /\
    c2 !! "jti" = Some (JStr j2) /\
    j1 <> j2.
Proof.
  apply (issued_token_ids_distinct Toy.clock_us Toy.uuid4_hex
           Toy.export_to_pem Toy.alg_sign Toy.b64url_json Toy.b64url
           Toy.jws_load toy_load_compact Toy.proc "user-123" "user-123"
           Toy.w1 (World 1 2 1)).
  - exact toy_uuid4_inj.
  - vm_compute. lia.
Defined.

Lemma issue_subject_trimmed_witness :
  exists (token : string) (exp : Z) (w' : world) (c : jobj),
    issue Toy.clock_us Toy.uuid4_hex Toy.export_to_pem Toy.alg_sign
      Toy.b64url_json Toy.b64url Toy.proc
      (Request {["uid" := "  user-123 "]} ∅) Toy.w1
    = (set_session (make_redirect "/demo") token exp, w') /\
    token_claims Toy.jws_load token = Some c /\
    c !! "sub" = Some (JStr "user-123") /\
    ("  user-123 " <> "user-123" -> c !! "sub" <> Some (JStr "  user-123 ")).
Proof.
  apply (issue_subject_trimmed Toy.clock_us Toy.uuid4_hex Toy.export_to_pem
           Toy.alg_sign Toy.b64url_json Toy.b64url Toy.jws_load
           toy_load_compact Toy.proc (Request {["uid" := "  user-123 "]} ∅)
           Toy.w1 "  " "user-123" " ").
  - apply lookup_singleton_eq.
  - reflexivity.
  - reflexivity.
  - reflexivity.
  - reflexivity.
Defined.

(** * Concrete requests

    The protected call evaluated on the reference instance.  Tokens other
    than the issuer's are made with [jwt_encode] under the process's key
    (or another one), as a holder of that key could. *)

(** The protected call of the reference process on a request that
    carries [token] as its authority cookie, and its answer. *)
Abbreviation toy_ping token w :=
  (api_ping Toy.clock_us Toy.export_to_pem Toy.alg_verify Toy.jws_load
     Toy.int_of_str Toy.proc (Request ∅ {[COOKIE_NAME := token]}) w).1.

(** A token over the given claims, signed with [key] under the header
    algorithm [alg]. *)
Abbreviation toy_token claims key alg :=
  (jwt_encode Toy.alg_sign Toy.b64url_json Toy.b64url
     (list_to_map claims : jobj) key alg ∅ Toy.w1).1.

(** Claims valid at the reference clock, for the given issuer and
    audience and the given window. *)
Abbreviation toy_claims iss aud nbf exp :=
  [("iss", JStr iss); ("aud", JStr aud); ("sub", JStr "user-123");
   ("iat", JInt 1700000000); ("nbf", JInt nbf); ("exp", JInt exp)].

Example ping_without_cookie :
  (api_ping Toy.clock_us Toy.export_to_pem Toy.alg_verify Toy.jws_load
     Toy.int_of_str Toy.proc (Request ∅ {[COOKIE_EXP := "1700000030"]})
     Toy.w1).1
  = inr (failure "Missing JWT (Cookie)" 401).
Proof. vm_compute. reflexivity. Qed.

Example ping_unreadable_token :
  toy_ping "not-a-token" Toy.w1
  = inr (failure "Cannot read header: Invalid header padding" 400).
Proof. vm_compute. reflexivity. Qed.

Example ping_none_algorithm :
  toy_ping (toy_token (toy_claims ISSUER AUDIENCE 1699999998 1700000030)
              "key-material" "none") Toy.w1
  = inr (failure "Invalid Token: The specified alg value is not allowed" 401).
Proof. vm_compute. reflexivity. Qed.

Example ping_foreign_signature :
  toy_ping (toy_token (toy_claims ISSUER AUDIENCE 1699999998 1700000030)
              "another-key" ALG) Toy.w1
  = inr (failure "Invalid Token: Signature verification failed" 401).
Proof. vm_compute. reflexivity. Qed.

Example ping_missing_claim :
  toy_ping (toy_token [("iss", JStr "someone else"); ("aud", JStr AUDIENCE);
                       ("iat", JInt 1700000000); ("nbf", JInt 1699999998);
                       ("exp", JInt 1600000000)]
              "key-material" ALG) Toy.w1
  = inr (failure
           ("Invalid Token: Token is missing the " +:+ dquote +:+ "sub"
            +:+ dquote +:+ " claim") 401).
Proof. vm_compute. reflexivity. Qed.

Example ping_expired_and_foreign_issuer :
  toy_ping (toy_token (toy_claims "someone else" "elsewhere" 1599999998
                         1600000000)
              "key-material" ALG) Toy.w1
  = inr (failure "Token expired" 401).
Proof. vm_compute. reflexivity. Qed.

Example ping_issuer_and_audience_mismatch :
  toy_ping (toy_token (toy_claims "someone else" "elsewhere" 1699999998
                         1700000030)
              "key-material" ALG) Toy.w1
  = inr (failure "iss mismatch" 401).
Proof. vm_compute. reflexivity. Qed.

Example ping_audience_mismatch :
  toy_ping (toy_token (toy_claims ISSUER "elsewhere" 1699999998 1700000030)
              "key-material" ALG) Toy.w1
  = inr (failure "aud mismatch" 401).
Proof. vm_compute. reflexivity. Qed.

(** The intermediate check on [nbf]: a token that is expired and whose
    [nbf] lies in the future is reported as not yet valid. *)
Example ping_immature_and_expired :
  toy_ping (toy_token (toy_claims ISSUER AUDIENCE 1800000000 1600000000)
              "key-material" ALG) Toy.w1
  = inr (failure "Invalid Token: The token is not yet valid (nbf)" 401).
Proof. vm_compute. reflexivity. Qed.

Example ping_valid_token :
  toy_ping (toy_token (toy_claims ISSUER AUDIENCE 1699999998 1700000030)
              "key-material" ALG) Toy.w1
  = inr (jsonify
           (json_ok "Validation successful" 1700000000
              (list_to_map [("typ", JStr "JWT"); ("alg", JStr ALG)] : jobj)
              (list_to_map (toy_claims ISSUER AUDIENCE 1699999998 1700000030)
               : jobj))
           200).
Proof. vm_compute. reflexivity. Qed.

Example issue_sets_both_cookies :
  exists token,
    (issue Toy.clock_us Toy.uuid4_hex Toy.export_to_pem Toy.alg_sign
       Toy.b64url_json Toy.b64url Toy.proc
       (Request {["uid" := "user-123"]} ∅) Toy.w1).1
    = Response 302 (redirect "/demo")
        [set_cookie "session_jwt" token 32 true false Lax "/";
         set_cookie "jwt_exp" "1700000030" 32 false false Lax "/demo"]
        [("Location", "/demo")].
Proof. eexists. vm_compute. reflexivity. Qed.

(** An audience given as a list of strings that holds the expected one
    is accepted. *)
Example ping_audience_list :
  toy_ping (toy_token [("iss", JStr ISSUER);
                       ("aud", JArr [JStr "elsewhere"; JStr AUDIENCE]);
                       ("sub", JStr "user-123"); ("iat", JInt 1700000000);
                       ("nbf", JInt 1699999998); ("exp", JInt 1700000030)]
              "key-material" ALG) Toy.w1
  = inr (jsonify
           (json_ok "Validation successful" 1700000000
              (list_to_map [("typ", JStr "JWT"); ("alg", JStr ALG)] : jobj)
              (list_to_map
                 [("iss", JStr ISSUER);
                  ("aud", JArr [JStr "elsewhere"; JStr AUDIENCE]);
                  ("sub", JStr "user-123"); ("iat", JInt 1700000000);
                  ("nbf", JInt 1699999998); ("exp", JInt 1700000030)]
               : jobj))
           200).
Proof. vm_compute. reflexivity. Qed.

(** An audience that is set but empty is reported as missing. *)
Example ping_empty_audience :
  toy_ping (toy_token (toy_claims ISSUER "" 1699999998 1700000030)
              "key-material" ALG) Toy.w1
  = inr (failure
           ("Invalid Token: Token is missing the " +:+ dquote +:+ "aud"
            +:+ dquote +:+ " claim") 401).
Proof. vm_compute. reflexivity. Qed.

(** A token whose header and payload are sound and whose signature
    segment is not: the answer is the one for an unreadable header. *)
Example ping_malformed_signature_segment :
  toy_ping (toy_token (toy_claims ISSUER AUDIENCE 1699999998 1700000030)
              "key-material" ALG +:+ "x") Toy.w1
  = inr (failure "Cannot read header: Invalid crypto padding" 400).
Proof. vm_compute. reflexivity. Qed.

(** A validly signed token whose [iat] is a list: the [TypeError] of
    [int] is none of the exceptions [api_ping] catches. *)
Example ping_list_valued_iat :
  toy_ping (toy_token [("iss", JStr ISSUER); ("aud", JStr AUDIENCE);
                       ("sub", JStr "user-123"); ("iat", JArr [JInt 1]);
                       ("nbf", JInt 1699999998); ("exp", JInt 1700000030)]
              "key-material" ALG) Toy.w1
  = inl (TypeError
           "int() argument must be a string, a bytes-like object or a real number").
Proof. vm_compute. reflexivity. Qed.




(** C5, as worded, fails on a token whose header can be read: the
    signature segment of a token the process's key signed is made
    malformed, and the answer has status 400. *)
Lemma api_ping_failure_statuses_counterexample :
  ~ claimed_failure_statuses Toy.clock_us Toy.export_to_pem Toy.alg_verify
      Toy.jws_load Toy.int_of_str Toy.proc
      (Request ∅ {[COOKIE_NAME :=
         toy_token (toy_claims ISSUER AUDIENCE 1699999998 1700000030)
           "key-material" ALG +:+ "x"]}) Toy.w1.
Proof.
  intros (r & w' & Hout & _ & Hiff & _).
  vm_compute in Hout. injection Hout as <- <-.
  destruct (proj1 Hiff eq_refl) as (token & Hc & _ & Hu).
  vm_compute in Hc. injection Hc as <-.
  destruct Hu as [(msg & Hm & _ & Hn)|(l & v & Hl & _)].
  - vm_compute in Hm. injection Hm as <-. by destruct Hn.
  - vm_compute in Hl. discriminate Hl.
Qed.

(** * The further properties on the reference instance *)

Abbreviation toy_issue req w :=
  (issue Toy.clock_us Toy.uuid4_hex Toy.export_to_pem Toy.alg_sign
     Toy.b64url_json Toy.b64url Toy.proc req w).

Abbreviation toy_issued uid w :=
  (issue_jwt_for_uid Toy.clock_us Toy.uuid4_hex Toy.export_to_pem
     Toy.alg_sign Toy.b64url_json Toy.b64url Toy.proc uid w).

Abbreviation toy_api_ping req w :=
  (api_ping Toy.clock_us Toy.export_to_pem Toy.alg_verify Toy.jws_load
     Toy.int_of_str Toy.proc req w).

Abbreviation toy_form uid := (Request {["uid" := uid]} ∅).

Lemma key_file_takes_precedence_witness :
  _load_private_jwk_json
    (Environ (Some "/run/secrets/jwk.json") None
       {["/run/secrets/jwk.json" := "from-file"]}) = Some "from-file" /\
  _load_private_jwk_json
    (Environ (Some "/run/secrets/jwk.json") (Some "inline")
       {["/run/secrets/jwk.json" := "from-file"]}) = Some "from-file".
Proof.
  exact (key_file_takes_precedence
           (Environ (Some "/run/secrets/jwk.json") (Some "inline")
              {["/run/secrets/jwk.json" := "from-file"]})
           "/run/secrets/jwk.json" "from-file" None
           eq_refl ltac:(discriminate) ltac:(vm_compute; reflexivity)).
Defined.

Lemma startup_without_key_witness :
  startup Toy.uuid4_hex Toy.from_json
    (Environ (Some "/run/secrets/jwk.json") (Some "") ∅) Toy.w0
  = (None, Toy.w0).
Proof.
  apply (startup_without_key Toy.uuid4_hex Toy.from_json
           (Environ (Some "/run/secrets/jwk.json") (Some "") ∅) Toy.w0).
  left. split; [right; vm_compute; reflexivity|right; reflexivity].
Defined.

Lemma jwks_serves_public_members_witness :
  exists k,
    jwks Toy.proc = Response 200 (json_keys [k]) []
                      [("Cache-Control", "public, max-age=300")] /\
    (forall name, name ∈ public_values (key_type (PRIV_JWK Toy.proc)) ->
       k !! name = members (PRIV_JWK Toy.proc) !! name) /\
    (exists name, name ∈ public_values (key_type (PRIV_JWK Toy.proc)) /\
                  is_Some (k !! name)) /\
    k !! "kty" = members (PRIV_JWK Toy.proc) !! "kty" /\
    k !! "kid" = Some (KID Toy.proc) /\
    k !! "use" = Some (default "sig" (members (PRIV_JWK Toy.proc) !! "use")) /\
    k !! "alg" = Some (default ALG (members (PRIV_JWK Toy.proc) !! "alg")) /\
    (forall name, name ∈ private_values (key_type (PRIV_JWK Toy.proc)) ->
       k !! name = None) /\
    (forall name, is_Some (k !! name) ->
       name ∈ common_params ++ public_values (key_type (PRIV_JWK Toy.proc))).
Proof.
  exact (jwks_serves_public_members Toy.uuid4_hex Toy.from_json Toy.env
           Toy.w0 Toy.w1 Toy.proc toy_startup).
Defined.

Lemma issue_sets_session_cookies_witness :
  exists (token : string) (exp : Z) (c : jobj),
    toy_issue (toy_form "  user-123 ") Toy.w1 =
      (Response 302 (redirect "/demo")
         [set_cookie "session_jwt" token 32 true false Lax "/";
          set_cookie "jwt_exp" (pretty exp) 32 false false Lax "/demo"]
         [("Location", "/demo")],
       World 1 2 1) /\
    token <> "" /\
    token_claims Toy.jws_load token = Some c /\
    c !! "exp" = Some (JInt exp).
Proof.
  apply (issue_sets_session_cookies Toy.clock_us Toy.uuid4_hex
           Toy.export_to_pem Toy.alg_sign Toy.b64url_json Toy.b64url
           Toy.jws_load toy_load_compact Toy.proc (toy_form "  user-123 ")
           Toy.w1).
  vm_compute. discriminate.
Defined.

Lemma issue_subject_well_formed_witness :
  exists (c : jobj) (sub : string),
    token_claims Toy.jws_load (toy_issued "user-123" Toy.w1).1.1 = Some c /\
    c !! "sub" = Some (JStr sub) /\
    sub = strip (default "" (form (toy_form "  user-123 ") !! "uid")) /\
    sub <> "" /\ starts_solid sub = true /\ ends_solid sub = true.
Proof.
  apply (issue_subject_well_formed Toy.clock_us Toy.uuid4_hex
           Toy.export_to_pem Toy.alg_sign Toy.b64url_json Toy.b64url
           Toy.jws_load toy_load_compact Toy.proc (toy_form "  user-123 ")
           Toy.w1 (toy_issued "user-123" Toy.w1).1.1 32 true false Lax "/").
  vm_compute. left.
Defined.

Lemma issued_token_expires_witness :
  toy_api_ping
    (Request ∅ {[COOKIE_NAME := (toy_issued "user-123" Toy.w1).1.1]})
    (World (Z.to_nat 40000) 2 1)
  = (inr (failure "Token expired" 401), World (S (Z.to_nat 40000)) 2 1).
Proof.
  apply (issued_token_expires Toy.clock_us Toy.uuid4_hex Toy.export_to_pem
           Toy.alg_sign Toy.alg_verify Toy.b64url_json Toy.b64url
           Toy.jws_load Toy.int_of_str toy_load_compact Toy.proc "user-123"
           Toy.w1 (World (Z.to_nat 40000) 2 1)).
  - apply toy_keypair_ok.
  - apply lookup_singleton_eq.
  - vm_compute. discriminate.
Defined.

Lemma issued_token_accepted_within_leeway_witness :
  exists (now : Z) (c : jobj),
    toy_api_ping
      (Request ∅ {[COOKIE_NAME := (toy_issued "user-123" Toy.w1).1.1]})
      (World (Z.to_nat 31000) 2 1)
    = (inr (jsonify
              (json_ok "Validation successful" now
                 (header_at Toy.proc) c) 200),
       World (S (S (Z.to_nat 31000))) 2 1) /\
    token_claims Toy.jws_load (toy_issued "user-123" Toy.w1).1.1 = Some c /\
    c !! "sub" = Some (JStr "user-123").
Proof.
  apply (issued_token_accepted_within_leeway Toy.clock_us Toy.uuid4_hex
           Toy.export_to_pem Toy.alg_sign Toy.alg_verify Toy.b64url_json
           Toy.b64url Toy.jws_load Toy.int_of_str toy_load_compact Toy.proc
           "user-123" Toy.w1 (World (Z.to_nat 31000) 2 1)).
  - apply toy_keypair_ok.
  - apply lookup_singleton_eq.
  - vm_compute. discriminate.
  - vm_compute. reflexivity.
Defined.

Lemma reset_clears_issued_cookies_witness :
  status reset = 302 /\ body reset = redirect "/" /\
  resp_headers reset = [("Location", "/")] /\
  resp_cookies reset =
    (fun d => delete_cookie (cookie_scope d).1 (cookie_scope d).2)
      <$> resp_cookies (toy_issue (toy_form "user-123") Toy.w1).1.
Proof.
  apply (reset_clears_issued_cookies Toy.clock_us Toy.uuid4_hex
           Toy.export_to_pem Toy.alg_sign Toy.b64url_json Toy.b64url
           Toy.proc (toy_form "user-123") Toy.w1).
  vm_compute. discriminate.
Defined.

Lemma demo_shows_issued_expiry_witness :
  exists (token : string) (c : jobj),
    set_cookie COOKIE_NAME token 32 true false Lax "/"
      ∈ resp_cookies (toy_issue (toy_form "user-123") Toy.w1).1 /\
    token_claims Toy.jws_load token = Some c /\
    page (demo Toy.int_of_dec Toy.proc
            (Request ∅ {[COOKIE_EXP := "1700000030"]})) = DEMO_HTML /\
    context (demo Toy.int_of_dec Toy.proc
               (Request ∅ {[COOKIE_EXP := "1700000030"]})) !! "exp"
    = c !! "exp" /\
    c !! "exp" = Some (JInt (int_secs (Toy.clock_us (reads Toy.w1)) + 30)).
Proof.
  apply (demo_shows_issued_expiry Toy.clock_us Toy.uuid4_hex
           Toy.export_to_pem Toy.alg_sign Toy.b64url_json Toy.b64url
           Toy.jws_load Toy.int_of_dec toy_load_compact Toy.proc
           (toy_form "user-123") (Request ∅ {[COOKIE_EXP := "1700000030"]})
           Toy.w1 "1700000030" 32 false false Lax "/demo").
  - vm_compute. right. left.
  - apply lookup_singleton_eq.
  - vm_compute. reflexivity.
Defined.

Lemma pages_show_token_parameters_witness :
  exists (h c : jobj),
    token_header Toy.jws_load (toy_issued "user-123" Toy.w1).1.1 = Some h /\
    token_claims Toy.jws_load (toy_issued "user-123" Toy.w1).1.1 = Some c /\
    Forall (fun r : rendering =>
              context r !! "alg" = h !! "alg" /\
              context r !! "kid" = h !! "kid" /\
              context r !! "iss" = c !! "iss" /\
              context r !! "aud" = c !! "aud")
           [index Toy.proc; demo Toy.int_of_dec Toy.proc (Request ∅ ∅)].
Proof.
  exact (pages_show_token_parameters Toy.clock_us Toy.uuid4_hex
           Toy.export_to_pem Toy.alg_sign Toy.b64url_json Toy.b64url
           Toy.jws_load Toy.int_of_dec toy_load_compact Toy.proc
           (Request ∅ ∅) "user-123" Toy.w1).
Defined.

Lemma issue_then_ping_witness :
  exists (now : Z) (h c : jobj) (w' : world),
    toy_api_ping
      (Request ∅ {[COOKIE_NAME := (toy_issued "user-123" Toy.w1).1.1;
                   COOKIE_EXP := "1700000030"]})
      (toy_issue (toy_form "  user-123 ") Toy.w1).2
    = (inr (jsonify (json_ok "Validation successful" now h c) 200), w') /\
    c !! "sub"
    = Some (JStr (strip (default "" (form (toy_form "  user-123 ") !! "uid"))))
    /\
    token_claims Toy.jws_load (toy_issued "user-123" Toy.w1).1.1 = Some c.
Proof.
  apply (issue_then_ping Toy.clock_us Toy.uuid4_hex Toy.export_to_pem
           Toy.alg_sign Toy.alg_verify Toy.b64url_json Toy.b64url
           Toy.jws_load Toy.int_of_str toy_load_compact Toy.proc
           (toy_form "  user-123 ")
           (Request ∅ {[COOKIE_NAME := (toy_issued "user-123" Toy.w1).1.1;
                        COOKIE_EXP := "1700000030"]})
           Toy.w1 (toy_issued "user-123" Toy.w1).1.1 32 true false Lax "/").
  - vm_compute. left.
  - vm_compute. reflexivity.
  - apply toy_keypair_ok.
  - vm_compute. discriminate.
  - vm_compute. reflexivity.
Defined.
